(** * BrowserClaw MCP server ([mcp-server/server.py]): a shallow embedding

    The server is a protocol adapter.  It answers two requests of an MCP
    client, "list tools" and "call tool", by talking HTTP to a bridge
    server; a small TTL cache keeps the tool catalog between listings.

    The embedding follows the Python module top to bottom:
    - Python values of JSON shape, dictionaries, exceptions;
    - [json.dumps(..., indent=2, ensure_ascii=False)] and a decoder;
    - the HTTP exchange with the bridge, as an oracle held by the world;
    - [_load_config], [BridgeClient], [ToolCache];
    - the two handlers [list_tools] and [call_tool] and [_to_mcp_tools].

    Conventions.  Strings are [string]s holding the UTF-8 bytes of the
    Python [str].  Numbers are integers ([Z]); JSON numbers with a
    fraction or an exponent are outside the model.  Clock readings
    ([time.time()]) and the TTL are exact numbers in [Z] (ticks of the
    clock), so the subtraction in [ToolCache.expired] is exact.  The
    handlers are coroutines; they are modelled as run to completion, one
    at a time. *)

From Stdlib Require Import ZArith List String Ascii Bool Lia.
From Stdlib Require Import DecimalString DecimalZ DecimalPos DecimalFacts.
Import ListNotations.

Local Open Scope string_scope.
Local Open Scope Z_scope.

(* ------------------------------------------------------------------ *)
(** ** Python values *)
(* ------------------------------------------------------------------ *)

(** The values that [json.load], [resp.json()] and the MCP channel hand to
    the program.  [JNull] is Python's [None].  A [JObj] is a [dict]: an
    association list in insertion order whose keys are pairwise distinct
    (see [wf_json]). *)
Unset Elimination Schemes.
Inductive json : Type :=
| JNull
| JBool (b : bool)
| JNum (n : Z)
| JStr (s : string)
| JArr (l : list json)
| JObj (d : list (string * json)).
Set Elimination Schemes.

Definition dict := list (string * json).

(** Induction over [json] with the hypotheses for the nested lists. *)
Section JsonInd.
Variable P : json -> Prop.
Hypothesis Hnull : P JNull.
Hypothesis Hbool : forall b, P (JBool b).
Hypothesis Hnum : forall n, P (JNum n).
Hypothesis Hstr : forall s, P (JStr s).
Hypothesis Harr : forall l, Forall P l -> P (JArr l).
Hypothesis Hobj : forall d, Forall (fun kv => P (snd kv)) d -> P (JObj d).

Fixpoint json_ind (j : json) : P j :=
  match j with
  | JNull => Hnull
  | JBool b => Hbool b
  | JNum n => Hnum n
  | JStr s => Hstr s
  | JArr l =>
      Harr l ((fix go (l : list json) : Forall P l :=
                 match l with
                 | [] => Forall_nil _
                 | x :: l' => Forall_cons x (json_ind x) (go l')
                 end) l)
  | JObj d =>
      Hobj d ((fix go (d : dict) : Forall (fun kv => P (snd kv)) d :=
                 match d with
                 | [] => Forall_nil _
                 | kv :: d' =>
                     Forall_cons (P := fun kv => P (snd kv)) kv
                       (json_ind (snd kv)) (go d')
                 end) d)
  end.
End JsonInd.

(** [d.get(k)]: the value bound to [k], if any. *)
Fixpoint dict_get (d : dict) (k : string) : option json :=
  match d with
  | [] => None
  | (k', v) :: d' => if String.eqb k k' then Some v else dict_get d' k
  end.

(** [d.get(k, default)]. *)
Definition dict_get_default (d : dict) (k : string) (default : json) : json :=
  match dict_get d k with
  | Some v => v
  | None => default
  end.

(** [d[k] = v]: an existing key keeps its place, a new key goes last. *)
Fixpoint dict_set (d : dict) (k : string) (v : json) : dict :=
  match d with
  | [] => [(k, v)]
  | (k', v') :: d' =>
      if String.eqb k k' then (k', v) :: d' else (k', v') :: dict_set d' k v
  end.

(** [d.update(other)] for a dict [other]: its items are assigned in order. *)
Definition dict_update (d other : dict) : dict :=
  fold_left (fun acc kv => dict_set acc (fst kv) (snd kv)) other d.

Definition keys (d : dict) : list string := map fst d.

(** The values a Python program can hold: every object has distinct keys. *)
Fixpoint distinct (ks : list string) : bool :=
  match ks with
  | [] => true
  | k :: ks' => negb (existsb (String.eqb k) ks') && distinct ks'
  end.

Fixpoint wf_json (j : json) : bool :=
  match j with
  | JArr l => forallb wf_json l
  | JObj d => distinct (keys d) && forallb (fun kv => wf_json (snd kv)) d
  | _ => true
  end.

(** Truth value of a value in a condition ([if v:]). *)
Definition truthy (v : json) : bool :=
  match v with
  | JNull => false
  | JBool b => b
  | JNum n => negb (n =? 0)
  | JStr s => negb (String.eqb s "")
  | JArr l => match l with [] => false | _ => true end
  | JObj d => match d with [] => false | _ => true end
  end.

Definition is_None (v : json) : bool :=
  match v with JNull => true | _ => false end.

(** *** Exceptions *)

(** The exceptions that occur in the module.  All of them derive from
    [Exception]; [HTTPStatusError] is the one [raise_for_status] raises and
    carries the response's status code and text; [ValidationError] is the
    one the constructor of [Tool] raises. *)
Inductive exn : Type :=
| KeyError (key : string)
| TypeError (msg : string)
| AttributeError (msg : string)
| JSONDecodeError (msg : string)
| HTTPStatusError (msg : string) (status_code : Z) (text : string)
| TransportError (msg : string)
| ValidationError (msg : string).

Inductive outcome (A : Type) : Type :=
| Returns (a : A)
| Raises (e : exn).
Arguments Returns {A} a.
Arguments Raises {A} e.

Definition squote : string := String "039"%char "".

(** [str(e)], as an f-string renders an exception. *)
Definition str_exn (e : exn) : string :=
  match e with
  | KeyError k => squote ++ k ++ squote
  | TypeError m | AttributeError m | JSONDecodeError m
  | HTTPStatusError m _ _ | TransportError m | ValidationError m => m
  end.

(** [str(n)] for an [int]. *)
Definition str_int (n : Z) : string := NilZero.string_of_int (Z.to_int n).

(** [for t in v]: the elements a loop over [v] visits. *)
Definition iterate (v : json) : outcome (list json) :=
  match v with
  | JArr l => Returns l
  | JObj d => Returns (map JStr (keys d))
  | JStr s => Returns (map (fun c => JStr (String c "")) (list_ascii_of_string s))
  | _ => Raises (TypeError "object is not iterable")
  end.

(** [v[k]] for a string key [k]. *)
Definition getitem (v : json) (k : string) : outcome json :=
  match v with
  | JObj d => match dict_get d k with
              | Some x => Returns x
              | None => Raises (KeyError k)
              end
  | JStr _ | JArr _ => Raises (TypeError "indices must be integers")
  | _ => Raises (TypeError "object is not subscriptable")
  end.

(** [v.get(k, default)]: only a [dict] has the method. *)
Definition get_method (v : json) (k : string) (default : json) : outcome json :=
  match v with
  | JObj d => Returns (dict_get_default d k default)
  | _ => Raises (AttributeError "object has no attribute 'get'")
  end.

(** [len(v)]. *)
Definition len (v : json) : outcome Z :=
  match v with
  | JStr s => Returns (Z.of_nat (String.length s))
  | JArr l => Returns (Z.of_nat (List.length l))
  | JObj d => Returns (Z.of_nat (List.length d))
  | _ => Raises (TypeError "object has no len()")
  end.

(* ------------------------------------------------------------------ *)
(** ** JSON text: [json.dumps(value, indent=2, ensure_ascii=False)] *)
(* ------------------------------------------------------------------ *)

Module Json.

Definition dquote : ascii := "034"%char.
Definition backslash : ascii := "092"%char.
Definition newline : ascii := "010"%char.

Definition hex_digit (n : nat) : ascii :=
  nth n (list_ascii_of_string "0123456789abcdef") "0"%char.

(** The replacement of one character inside a string literal: the quote,
    the backslash and the control characters below U+0020 are escaped,
    every other byte is copied ([ensure_ascii=False]). *)
Definition escape_char (c : ascii) : string :=
  let n := nat_of_ascii c in
  if Ascii.eqb c dquote then String backslash (String dquote "")
  else if Ascii.eqb c backslash then String backslash (String backslash "")
  else if Nat.eqb n 10 then String backslash "n"
  else if Nat.eqb n 13 then String backslash "r"
  else if Nat.eqb n 9 then String backslash "t"
  else if Nat.eqb n 8 then String backslash "b"
  else if Nat.eqb n 12 then String backslash "f"
  else if Nat.ltb n 32 then
    String backslash
      (String "u" (String "0" (String "0"
         (String (hex_digit (n / 16)) (String (hex_digit (n mod 16)) "")))))
  else String c "".

Fixpoint escape (s : string) : string :=
  match s with
  | EmptyString => ""
  | String c s' => escape_char c ++ escape s'
  end.

Definition encode_str (s : string) : string :=
  String dquote (escape s ++ String dquote "").

Fixpoint spaces (n : nat) : string :=
  match n with
  | O => ""
  | S n' => String " " (spaces n')
  end.

(** The line break and indentation in front of an item at nesting [level]. *)
Definition newline_indent (level : nat) : string :=
  String newline (spaces (2 * level)).

(** The items of a container after the first: each one follows [sep]. *)
Fixpoint join_items {A : Type} (enc : A -> string) (sep : string)
  (l : list A) : string :=
  match l with
  | [] => ""
  | y :: l' => sep ++ enc y ++ join_items enc sep l'
  end.

(** The encoder at nesting [level]: an empty container is written closed,
    a non-empty one has an item per line, separated by a comma. *)
Fixpoint encode (level : nat) (j : json) : string :=
  match j with
  | JNull => "null"
  | JBool true => "true"
  | JBool false => "false"
  | JNum n => str_int n
  | JStr s => encode_str s
  | JArr [] => "[]"
  | JArr (x :: xs) =>
      "[" ++ newline_indent (S level) ++ encode (S level) x
      ++ join_items (encode (S level)) ("," ++ newline_indent (S level)) xs
      ++ newline_indent level ++ "]"
  | JObj [] => "{}"
  | JObj (kv :: kvs) =>
      "{" ++ newline_indent (S level)
      ++ encode_str (fst kv) ++ ": " ++ encode (S level) (snd kv)
      ++ join_items
           (fun kv' => encode_str (fst kv') ++ ": " ++ encode (S level) (snd kv'))
           ("," ++ newline_indent (S level)) kvs
      ++ newline_indent level ++ "}"
  end.

Definition dumps (j : json) : string := encode 0 j.

(** *** The decoder

    [loads] reads the JSON text of a value of the model: whitespace
    between tokens, the literals, integers without leading zeros, strings
    with the escapes of JSON, arrays and objects.  A number with a
    fraction or an exponent and an escape [\uXXXX] above U+007F are not
    values of the model and are refused.  An object is built as a dict: a
    repeated key keeps its first place and takes the last value. *)

(** Whitespace between tokens. *)
Definition is_ws (c : ascii) : bool :=
  let n := nat_of_ascii c in
  Nat.eqb n 32 || Nat.eqb n 9 || Nat.eqb n 10 || Nat.eqb n 13.

Fixpoint skip_ws (s : string) : string :=
  match s with
  | String c s' => if is_ws c then skip_ws s' else s
  | EmptyString => ""
  end.

Definition digit_of_char (c : ascii) : option (Decimal.uint -> Decimal.uint) :=
  match nat_of_ascii c - 48 with
  | 0 => if Nat.eqb (nat_of_ascii c) 48 then Some Decimal.D0 else None
  | 1 => Some Decimal.D1
  | 2 => Some Decimal.D2
  | 3 => Some Decimal.D3
  | 4 => Some Decimal.D4
  | 5 => Some Decimal.D5
  | 6 => Some Decimal.D6
  | 7 => Some Decimal.D7
  | 8 => Some Decimal.D8
  | 9 => Some Decimal.D9
  | _ => None
  end%nat.

(** The longest run of digits at the start of [s], and what follows. *)
Fixpoint read_digits (s : string) : Decimal.uint * string :=
  match s with
  | String c s' =>
      match digit_of_char c with
      | Some d => let (u, r) := read_digits s' in (d u, r)
      | None => (Decimal.Nil, s)
      end
  | EmptyString => (Decimal.Nil, "")
  end.

(** A run of digits is an integer literal when it is a single zero or
    starts with another digit. *)
Definition int_literal (u : Decimal.uint) : bool :=
  match u with
  | Decimal.Nil => false
  | Decimal.D0 Decimal.Nil => true
  | Decimal.D0 _ => false
  | _ => true
  end.

(** A fraction or an exponent would follow. *)
Definition continues_number (s : string) : bool :=
  match s with
  | String c _ =>
      Ascii.eqb c "." || Ascii.eqb c "e" || Ascii.eqb c "E"
  | EmptyString => false
  end.

Definition read_int (s : string) : option (Z * string) :=
  let (neg, s1) := match s with
                   | String c s' => if Ascii.eqb c "-" then (true, s') else (false, s)
                   | EmptyString => (false, s)
                   end in
  let (u, r) := read_digits s1 in
  if int_literal u && negb (continues_number r) then
    Some (Z.of_int (if neg then Decimal.Neg u else Decimal.Pos u), r)
  else None.

Definition hex_value (c : ascii) : option nat :=
  let n := nat_of_ascii c in
  if ((48 <=? n) && (n <=? 57))%nat then Some (n - 48)%nat
  else if ((97 <=? n) && (n <=? 102))%nat then Some (n - 87)%nat
  else if ((65 <=? n) && (n <=? 70))%nat then Some (n - 55)%nat
  else None.

(** The character of the escape [\uXXXX], for code points below U+0080. *)
Definition unicode_escape (h1 h2 h3 h4 : ascii) : option ascii :=
  match hex_value h1, hex_value h2, hex_value h3, hex_value h4 with
  | Some a, Some b, Some c, Some d =>
      let n := ((a * 16 + b) * 16 + c) * 16 + d in
      if n <? 128 then Some (ascii_of_nat n) else None
  | _, _, _, _ => None
  end%nat.

Definition simple_escape (c : ascii) : option ascii :=
  if Ascii.eqb c dquote then Some dquote
  else if Ascii.eqb c backslash then Some backslash
  else if Ascii.eqb c "/" then Some "/"%char
  else if Ascii.eqb c "b" then Some (ascii_of_nat 8)
  else if Ascii.eqb c "f" then Some (ascii_of_nat 12)
  else if Ascii.eqb c "n" then Some (ascii_of_nat 10)
  else if Ascii.eqb c "r" then Some (ascii_of_nat 13)
  else if Ascii.eqb c "t" then Some (ascii_of_nat 9)
  else None.

(** The content of a string literal after its opening quote, up to the
    closing quote, and what follows the closing quote. *)
Fixpoint read_string (s : string) : option (string * string) :=
  match s with
  | EmptyString => None
  | String c s' =>
      if Ascii.eqb c dquote then Some ("", s')
      else if Ascii.eqb c backslash then
        match s' with
        | String e s'' =>
            if Ascii.eqb e "u" then
              match s'' with
              | String h1 (String h2 (String h3 (String h4 s3))) =>
                  match unicode_escape h1 h2 h3 h4, read_string s3 with
                  | Some x, Some (str, r) => Some (String x str, r)
                  | _, _ => None
                  end
              | _ => None
              end
            else
              match simple_escape e, read_string s'' with
              | Some x, Some (str, r) => Some (String x str, r)
              | _, _ => None
              end
        | EmptyString => None
        end
      else if (nat_of_ascii c <? 32)%nat then None
      else
        match read_string s' with
        | Some (str, r) => Some (String c str, r)
        | None => None
        end
  end.

(** [s] without the literal [lit] at its start. *)
Fixpoint strip_prefix (lit s : string) : option string :=
  match lit with
  | EmptyString => Some s
  | String a lit' =>
      match s with
      | String b s' => if Ascii.eqb a b then strip_prefix lit' s' else None
      | EmptyString => None
      end
  end.

(** The literals [true], [false] and [null]. *)
Definition read_literal (s : string) : option (json * string) :=
  match strip_prefix "true" s with
  | Some r => Some (JBool true, r)
  | None =>
      match strip_prefix "false" s with
      | Some r => Some (JBool false, r)
      | None =>
          match strip_prefix "null" s with
          | Some r => Some (JNull, r)
          | None => None
          end
      end
  end.

(** The decoder.  [fuel] bounds the number of values, elements and
    members that are read. *)
Fixpoint parse_value (fuel : nat) (s : string) : option (json * string) :=
  match fuel with
  | O => None
  | S fuel' =>
      match skip_ws s with
      | EmptyString => None
      | String c s' =>
          if Ascii.eqb c dquote then
            match read_string s' with
            | Some (str, r) => Some (JStr str, r)
            | None => None
            end
          else if Ascii.eqb c "[" then
            match skip_ws s' with
            | String c' r =>
                if Ascii.eqb c' "]" then Some (JArr [], r)
                else match parse_elements fuel' s' with
                     | Some (l, r') => Some (JArr l, r')
                     | None => None
                     end
            | EmptyString => None
            end
          else if Ascii.eqb c "{" then
            match skip_ws s' with
            | String c' r =>
                if Ascii.eqb c' "}" then Some (JObj [], r)
                else match parse_members fuel' s' with
                     | Some (d, r') => Some (JObj (dict_update [] d), r')
                     | None => None
                     end
            | EmptyString => None
            end
          else
            match read_literal (String c s') with
            | Some res => Some res
            | None =>
                match read_int (String c s') with
                | Some (n, r) => Some (JNum n, r)
                | None => None
                end
            end
      end
  end
with parse_elements (fuel : nat) (s : string) : option (list json * string) :=
  match fuel with
  | O => None
  | S fuel' =>
      match parse_value fuel' s with
      | Some (v, r) =>
          match skip_ws r with
          | String c r' =>
              if Ascii.eqb c "," then
                match parse_elements fuel' r' with
                | Some (l, r'') => Some (v :: l, r'')
                | None => None
                end
              else if Ascii.eqb c "]" then Some ([v], r')
              else None
          | EmptyString => None
          end
      | None => None
      end
  end
with parse_members (fuel : nat) (s : string) : option (dict * string) :=
  match fuel with
  | O => None
  | S fuel' =>
      match skip_ws s with
      | String q s1 =>
          if Ascii.eqb q dquote then
            match read_string s1 with
            | Some (k, r1) =>
                match skip_ws r1 with
                | String c r2 =>
                    if Ascii.eqb c ":" then
                      match parse_value fuel' r2 with
                      | Some (v, r3) =>
                          match skip_ws r3 with
                          | String c' r4 =>
                              if Ascii.eqb c' "," then
                                match parse_members fuel' r4 with
                                | Some (d, r5) => Some ((k, v) :: d, r5)
                                | None => None
                                end
                              else if Ascii.eqb c' "}" then Some ([(k, v)], r4)
                              else None
                          | EmptyString => None
                          end
                      | None => None
                      end
                    else None
                | EmptyString => None
                end
            | None => None
            end
          else None
      | EmptyString => None
      end
  end.

(** [json.loads(s)]: one value, with nothing but whitespace after it. *)
Definition loads (s : string) : option json :=
  match parse_value (S (String.length s)) s with
  | Some (j, r) => match skip_ws r with EmptyString => Some j | _ => None end
  | None => None
  end.

End Json.

(* ------------------------------------------------------------------ *)
(** ** The HTTP exchange with the bridge *)
(* ------------------------------------------------------------------ *)

Inductive http_method : Type := GET | POST.

(** A request as [httpx.AsyncClient] sends it: the headers are those of
    the client handle, [body] is the value passed as [json=]. *)
Record Request : Type := {
  method : http_method;
  url : string;
  req_headers : list (string * string);
  body : option json
}.

(** What decoding the body of a response gives: the value, or the message
    of the decoder's error when the body is not JSON. *)
Inductive decoded : Type :=
| IsJson (j : json)
| NotJson (msg : string).

(** A response object: its [status_code], its [text] and its decoded
    body. *)
Record Response : Type := {
  status_code : Z;
  text : string;
  decoded_body : decoded
}.

(** [resp.json()]. *)
Definition json_ (r : Response) : outcome json :=
  match decoded_body r with
  | IsJson j => Returns j
  | NotJson msg => Raises (JSONDecodeError msg)
  end.

(** What awaiting a request yields: a response, or the exception of the
    transport (connection refused, timeout, ...). *)
Inductive HttpOutcome : Type :=
| Responds (r : Response)
| Fails (msg : string).

(** [resp.raise_for_status()]: an exception unless the status is 2xx.
    The message of the exception only reaches the log. *)
Definition raise_for_status (r : Response) : outcome unit :=
  if (200 <=? status_code r) && (status_code r <=? 299) then Returns tt
  else Raises (HTTPStatusError ("HTTP error " ++ str_int (status_code r))
                 (status_code r) (text r)).

(* ------------------------------------------------------------------ *)
(** ** The objects of the module and the world they live in *)
(* ------------------------------------------------------------------ *)

(** The connection handle [httpx.AsyncClient(headers=..., timeout=...)]. *)
Record AsyncClient : Type := {
  headers : list (string * string);
  client_timeout : Z;
  is_closed : bool
}.

Record BridgeClient : Type := {
  base_url : string;
  token : string;
  timeout : Z;
  _client : option AsyncClient
}.

Record ToolCache : Type := {
  ttl : Z;
  _tools : json;
  _fetched_at : Z
}.

(** [mcp.types.Tool] and [mcp.types.TextContent], as records of the
    values they are built from. *)
Record Tool : Type := {
  name : json;
  description : json;
  inputSchema : json
}.

(** Modelled from the spec: the constructor [Tool(name=..., description=...,
    inputSchema=...)] of the model class [mcp.types.Tool], which belongs to
    the MCP library and is not part of the repository.  A tool descriptor
    has a string for its name, a string for its description and a JSON
    object for its input schema; the constructor validates its arguments
    and raises [ValidationError] unless the name is a string, the
    description a string or [None], and the input schema a dict.  The
    message of the exception stands for the report of the library. *)
Definition new_Tool (name description inputSchema : json) : outcome Tool :=
  match name, description, inputSchema with
  | JStr _, (JStr _ | JNull), JObj _ =>
      Returns {| name := name; description := description;
                 inputSchema := inputSchema |}
  | _, _, _ => Raises (ValidationError "validation error for Tool")
  end.

Record TextContent : Type := {
  type_ : string;
  text_ : string
}.

(** The module's globals [bridge] and [cache], the bridge server behind
    the network ([net] answers a request), the requests issued so far
    ([sent], oldest first) and the clock: [clock n] is what the [n]-th
    call of [time.time()] returns, [ticks] counts the calls made. *)
Record World : Type := {
  bridge : BridgeClient;
  cache : ToolCache;
  net : Request -> HttpOutcome;
  sent : list Request;
  clock : nat -> Z;
  ticks : nat
}.

Definition with_bridge (b : BridgeClient) (w : World) : World :=
  {| bridge := b; cache := cache w; net := net w; sent := sent w;
     clock := clock w; ticks := ticks w |}.

Definition with_cache (c : ToolCache) (w : World) : World :=
  {| bridge := bridge w; cache := c; net := net w; sent := sent w;
     clock := clock w; ticks := ticks w |}.

Definition with_sent (l : list Request) (w : World) : World :=
  {| bridge := bridge w; cache := cache w; net := net w; sent := l;
     clock := clock w; ticks := ticks w |}.

Definition with_ticks (n : nat) (w : World) : World :=
  {| bridge := bridge w; cache := cache w; net := net w; sent := sent w;
     clock := clock w; ticks := n |}.

(** The next reading of the clock. *)
Definition now (w : World) : Z := clock w (ticks w).

(** *** Computations: state passing with exceptions *)

Definition M (A : Type) : Type := World -> outcome A * World.

Definition ret {A} (a : A) : M A := fun w => (Returns a, w).

Definition raise {A} (e : exn) : M A := fun w => (Raises e, w).

Definition bind {A B} (m : M A) (k : A -> M B) : M B :=
  fun w =>
    match m w with
    | (Returns a, w') => k a w'
    | (Raises e, w') => (Raises e, w')
    end.

(** [try: m  except Exception as e: h e]; the effects of [m] up to the
    exception stay. *)
Definition try_except {A} (m : M A) (h : exn -> M A) : M A :=
  fun w =>
    match m w with
    | (Returns a, w') => (Returns a, w')
    | (Raises e, w') => h e w'
    end.

Definition lift {A} (o : outcome A) : M A := fun w => (o, w).

Definition gets {A} (f : World -> A) : M A := fun w => (Returns (f w), w).

Definition modify (f : World -> World) : M unit := fun w => (Returns tt, f w).

Notation "x <- m ;; k" := (bind m (fun x => k))
  (at level 61, m at next level, right associativity).
Notation "m ;;; k" := (bind m (fun _ => k))
  (at level 61, right associativity).

(** [time.time()]. *)
Definition time_time : M Z :=
  fun w => (Returns (now w), with_ticks (S (ticks w)) w).

(** [await client.get(url)] and [await client.post(url, json=body)]. *)
Definition send (c : AsyncClient) (m : http_method) (u : string)
  (b : option json) : M Response :=
  fun w =>
    let r := {| method := m; url := u; req_headers := headers c; body := b |} in
    let w' := with_sent (sent w ++ [r]) w in
    match net w r with
    | Responds resp => (Returns resp, w')
    | Fails msg => (Raises (TransportError msg), w')
    end.

(* ------------------------------------------------------------------ *)
(** ** Bridge client *)
(* ------------------------------------------------------------------ *)

(** [s.rstrip(chars)]: [s] without its trailing characters from [chars]. *)
Definition mem_char (c : ascii) (chars : string) : bool :=
  existsb (Ascii.eqb c) (list_ascii_of_string chars).

Fixpoint rstrip (s chars : string) : string :=
  match s with
  | EmptyString => ""
  | String c s' =>
      match rstrip s' chars with
      | EmptyString => if mem_char c chars then "" else String c ""
      | r => String c r
      end
  end.

Module BridgeClient.

Definition __init__ (base_url token : string) (timeout : Z) : BridgeClient :=
  {| base_url := rstrip base_url "/"; token := token; timeout := timeout;
     _client := None |}.

Definition new_client (self : BridgeClient) : AsyncClient :=
  {| headers :=
       [("Content-Type", "application/json")]
       ++ (if String.eqb (token self) "" then []
           else [("Authorization", "Bearer " ++ token self)]);
     client_timeout := timeout self;
     is_closed := false |}.

Definition set_client (c : AsyncClient) (self : BridgeClient) : BridgeClient :=
  {| base_url := base_url self; token := token self; timeout := timeout self;
     _client := Some c |}.

(** [_get_client]: the handle, created on first use and again after the
    previous one was closed. *)
Definition _get_client : M AsyncClient :=
  self <- gets bridge ;;
  match _client self with
  | Some c =>
      if is_closed c then
        modify (with_bridge (set_client (new_client self) self)) ;;;
        ret (new_client self)
      else ret c
  | None =>
      modify (with_bridge (set_client (new_client self) self)) ;;;
      ret (new_client self)
  end.

Definition health : M json :=
  client <- _get_client ;;
  self <- gets bridge ;;
  resp <- send client GET (base_url self ++ "/health") None ;;
  lift (raise_for_status resp) ;;;
  lift (json_ resp).

Definition list_tools : M json :=
  client <- _get_client ;;
  self <- gets bridge ;;
  resp <- send client GET (base_url self ++ "/tools") None ;;
  lift (raise_for_status resp) ;;;
  data <- lift (json_ resp) ;;
  lift (get_method data "tools" (JArr [])).

Definition call_tool (tool : string) (args : json) : M json :=
  client <- _get_client ;;
  self <- gets bridge ;;
  resp <- send client POST (base_url self ++ "/tool_call")
            (Some (JObj [("tool", JStr tool); ("args", args)])) ;;
  lift (json_ resp).

Definition close : M unit :=
  self <- gets bridge ;;
  match _client self with
  | Some c =>
      if is_closed c then ret tt
      else modify (with_bridge
                     (set_client {| headers := headers c;
                                    client_timeout := client_timeout c;
                                    is_closed := true |} self))
  | None => ret tt
  end.

End BridgeClient.

(* ------------------------------------------------------------------ *)
(** ** Tool cache *)
(* ------------------------------------------------------------------ *)

(** The methods of [ToolCache]; [now] is the reading of [time.time()]
    that the method takes. *)
Module ToolCache.

Definition __init__ (ttl : Z) : ToolCache :=
  {| ttl := ttl; _tools := JArr []; _fetched_at := 0 |}.

Definition expired (self : ToolCache) (now : Z) : bool :=
  (now - _fetched_at self) >? ttl self.

(** [get] returns [None] ([JNull]) or the held catalog. *)
Definition get (self : ToolCache) (now : Z) : json :=
  if expired self now then JNull else _tools self.

Definition set (self : ToolCache) (tools : json) (now : Z) : ToolCache :=
  {| ttl := ttl self; _tools := tools; _fetched_at := now |}.

Definition invalidate (self : ToolCache) : ToolCache :=
  {| ttl := ttl self; _tools := _tools self; _fetched_at := 0 |}.

End ToolCache.

(* ------------------------------------------------------------------ *)
(** ** MCP server: the two handlers *)
(* ------------------------------------------------------------------ *)

Definition default_schema : json :=
  JObj [("type", JStr "object"); ("properties", JObj [])].

(** The body of the loop of [_to_mcp_tools]: one raw tool to a [Tool].
    The three arguments are evaluated, then the constructor is called. *)
Definition to_mcp_tool (t : json) : outcome Tool :=
  match getitem t "name" with
  | Raises e => Raises e
  | Returns n =>
      match get_method t "description" (JStr "") with
      | Raises e => Raises e
      | Returns d =>
          match get_method t "inputSchema" default_schema with
          | Raises e => Raises e
          | Returns s => new_Tool n d s
          end
      end
  end.

(** The loop: [tools] is the list built so far. *)
Fixpoint to_mcp_tools_loop (ts : list json) (tools : list Tool)
  : outcome (list Tool) :=
  match ts with
  | [] => Returns tools
  | t :: ts' =>
      match to_mcp_tool t with
      | Returns x => to_mcp_tools_loop ts' (tools ++ [x])
      | Raises e => Raises e
      end
  end.

Definition _to_mcp_tools (raw : json) : outcome (list Tool) :=
  match iterate raw with
  | Returns ts => to_mcp_tools_loop ts []
  | Raises e => Raises e
  end.

(** [cache.get()] and [cache.set(tools)] on the global [cache]. *)
Definition cache_get : M json :=
  t <- time_time ;;
  c <- gets cache ;;
  ret (ToolCache.get c t).

Definition cache_set (tools : json) : M unit :=
  t <- time_time ;;
  c <- gets cache ;;
  modify (with_cache (ToolCache.set c tools t)).

(** The handler of "list tools".  [log.info] and [log.error] have no
    effect on the result; [len(raw_tools)], the argument of [log.info],
    is evaluated. *)
Definition list_tools : M (list Tool) :=
  cached <- cache_get ;;
  if negb (is_None cached) then lift (_to_mcp_tools cached)
  else
    try_except
      (raw_tools <- BridgeClient.list_tools ;;
       cache_set raw_tools ;;;
       lift (len raw_tools) ;;;
       lift (_to_mcp_tools raw_tools))
      (fun e =>
         c <- gets cache ;;
         if truthy (_tools c) then lift (_to_mcp_tools (_tools c))
         else ret []).

Definition text_content (s : string) : TextContent :=
  {| type_ := "text"; text_ := s |}.

(** The handler of "call tool".  The first handler takes an
    [HTTPStatusError], the second every other exception. *)
Definition call_tool (name : string) (arguments : json) : M (list TextContent) :=
  try_except
    (result <- BridgeClient.call_tool name arguments ;;
     ret [text_content (Json.dumps result)])
    (fun e =>
       match e with
       | HTTPStatusError _ code body_text =>
           ret [text_content ("Bridge error: " ++ str_int code ++ " " ++ body_text)]
       | _ => ret [text_content ("Error: " ++ str_exn e)]
       end).

(* ------------------------------------------------------------------ *)
(** ** Configuration *)
(* ------------------------------------------------------------------ *)

(** What opening and loading [config.json] gives: the two exceptions the
    loader catches, or the dict that [json.load] returns.  (A file whose
    top-level value is not an object, or that cannot be read for another
    reason, is outside this type.) *)
Inductive config_file : Type :=
| FileNotFound
| InvalidJSON
| Loaded (cfg : dict).

(** [os.environ.get]. *)
Definition environ := string -> option string.

Definition defaults : dict :=
  [("bridge_url", JStr "http://localhost:9333");
   ("bridge_token", JStr "");
   ("tool_cache_ttl_seconds", JNum 300);
   ("request_timeout_seconds", JNum 30);
   ("log_level", JStr "INFO")].

(** [if os.environ.get(var): d[key] = os.environ[var]]: a variable that is
    unset or empty changes nothing. *)
Definition env_override (env : environ) (var key : string) (d : dict) : dict :=
  match env var with
  | Some v => if String.eqb v "" then d else dict_set d key (JStr v)
  | None => d
  end.

Definition _load_config (file : config_file) (env : environ) : dict :=
  let d0 := match file with
            | Loaded cfg => dict_update defaults cfg
            | FileNotFound | InvalidJSON => defaults
            end in
  let d1 := env_override env "BROWSERCLAW_BRIDGE_URL" "bridge_url" d0 in
  let d2 := env_override env "BROWSERCLAW_BRIDGE_TOKEN" "bridge_token" d1 in
  env_override env "BROWSERCLAW_LOG_LEVEL" "log_level" d2.

(* ------------------------------------------------------------------ *)
(** ** Definitions used in the statements *)
(* ------------------------------------------------------------------ *)

(** The descriptor the specification gives for a raw tool object [d]
    whose name is [n]. *)
Definition ToolDescriptor (d : dict) (n : json) : Tool :=
  {| name := n;
     description := match dict_get d "description" with
                    | Some x => x
                    | None => JStr ""
                    end;
     inputSchema := match dict_get d "inputSchema" with
                    | Some s => s
                    | None => JObj [("type", JStr "object");
                                    ("properties", JObj [])]
                    end |}.

(** A run of [n] slashes. *)
Fixpoint slashes (n : nat) : string :=
  match n with
  | O => ""
  | S n' => String "/" (slashes n')
  end.

(** Only the connection handle of [bridge] differs between [w] and [w']. *)
Definition same_but_client (w w' : World) : Prop :=
  cache w' = cache w /\ net w' = net w /\ sent w' = sent w /\
  clock w' = clock w /\ ticks w' = ticks w /\
  base_url (bridge w') = base_url (bridge w) /\
  token (bridge w') = token (bridge w) /\
  timeout (bridge w') = timeout (bridge w).

(** The answer of the bridge to a request, as [health] and [list_tools]
    read it: the status is checked, then the body decoded. *)
Definition checked_json (o : HttpOutcome) : outcome json :=
  match o with
  | Fails msg => Raises (TransportError msg)
  | Responds resp =>
      match raise_for_status resp with
      | Raises e => Raises e
      | Returns _ => json_ resp
      end
  end.

(** The answer as [call_tool] reads it: the body is decoded whatever the
    status. *)
Definition unchecked_json (o : HttpOutcome) : outcome json :=
  match o with
  | Fails msg => Raises (TransportError msg)
  | Responds resp => json_ resp
  end.

(** [data.get("tools", [])] on the decoded answer. *)
Definition tools_field (o : outcome json) : outcome json :=
  match o with
  | Returns data => get_method data "tools" (JArr [])
  | Raises e => Raises e
  end.

(** A world at the start of a request: the bridge client as the module
    builds it from the default configuration (with a trailing slash on the
    URL), no request issued yet, a clock that reads [time]. *)
Definition world_at (server : Request -> HttpOutcome) (c : ToolCache)
  (time : Z) : World :=
  {| bridge := BridgeClient.__init__ "http://localhost:9333/" "" 30;
     cache := c; net := server; sent := [];
     clock := fun _ => time; ticks := 0 |}.

(** The world [w] at a later request: the module's objects and the log
    are those of [w], the bridge now behaves as [server] and the clock
    reads [time]. *)
Definition later (server : Request -> HttpOutcome) (time : Z) (w : World)
  : World :=
  {| bridge := bridge w; cache := cache w; net := server; sent := sent w;
     clock := fun _ => time; ticks := ticks w |}.

(** A bridge that cannot be reached. *)
Definition unreachable : Request -> HttpOutcome :=
  fun _ => Fails "All connection attempts failed".

(** A bridge that answers every request with the given status and a JSON
    body. *)
Definition answers (status : Z) (j : json) : Request -> HttpOutcome :=
  fun _ => Responds {| status_code := status; text := Json.dumps j;
                       decoded_body := IsJson j |}.

(** A bridge that answers with the given status and a body that is not
    JSON. *)
Definition answers_text (status : Z) (body_text : string)
  : Request -> HttpOutcome :=
  fun _ => Responds {| status_code := status; text := body_text;
                       decoded_body :=
                         NotJson "Expecting value: line 1 column 1 (char 0)" |}.

(** A value that [_to_mcp_tools] translates. *)
Definition translatable (v : json) : Prop :=
  exists ts, _to_mcp_tools v = Returns ts.

(** [sub in s]. *)
Fixpoint contains (s sub : string) : bool :=
  String.prefix sub s
  || match s with
     | EmptyString => false
     | String _ s' => contains s' sub
     end.

(** The text that the handler builds from the outcome of the bridge
    client's [call_tool]. *)
Definition call_tool_text (o : outcome json) : string :=
  match o with
  | Returns result => Json.dumps result
  | Raises (HTTPStatusError _ code body_text) =>
      "Bridge error: " ++ str_int code ++ " " ++ body_text
  | Raises e => "Error: " ++ str_exn e
  end.

(** The value of [key] in the configuration file, if the file was loaded
    and binds the key. *)
Definition file_value (file : config_file) (key : string) : option json :=
  match file with
  | Loaded cfg => dict_get cfg key
  | FileNotFound | InvalidJSON => None
  end.

(** File-based value when present, otherwise the built-in default. *)
Definition file_or_default (file : config_file) (key : string)
  (default : json) : json :=
  match file_value file key with
  | Some v => v
  | None => default
  end.

(** The environment variable [var] when it is set to a non-empty string,
    otherwise the file-based value, otherwise the default. *)
Definition env_file_or_default (env : environ) (var : string)
  (file : config_file) (key : string) (default : json) : json :=
  match env var with
  | Some v => if String.eqb v "" then file_or_default file key default
              else JStr v
  | None => file_or_default file key default
  end.

(** The file content is a dict: its keys are distinct. *)
Definition is_dict (file : config_file) : Prop :=
  match file with
  | Loaded cfg => distinct (keys cfg) = true
  | FileNotFound | InvalidJSON => True
  end.

(** An environment that sets the bridge URL and leaves the token empty. *)
Definition example_environ : environ :=
  fun var =>
    if String.eqb var "BROWSERCLAW_BRIDGE_URL" then Some "http://bridge:9000/"
    else if String.eqb var "BROWSERCLAW_BRIDGE_TOKEN" then Some ""
    else None.

(** A configuration file that binds the token and the TTL. *)
Definition example_file : config_file :=
  Loaded [("bridge_token", JStr "s3cret"); ("tool_cache_ttl_seconds", JNum 60)].

(** The first character of [s] is a digit. *)
Definition starts_digit (s : string) : bool :=
  match s with
  | String c _ => match Json.digit_of_char c with Some _ => true | None => false end
  | EmptyString => false
  end.

(** The first character of a number: a minus sign or a digit. *)
Definition number_start (c : ascii) : bool :=
  Ascii.eqb c "-"
  || match Json.digit_of_char c with Some _ => true | None => false end.

(** The number of values, elements and members of a value: the fuel that
    reading its text takes. *)
Fixpoint size (j : json) : nat :=
  match j with
  | JArr l => S (list_sum (map (fun x => S (size x)) l))
  | JObj d => S (list_sum (map (fun kv => S (size (snd kv))) d))
  | _ => 1
  end.

(** What may follow the text of a value inside a container. *)
Definition delimited (rest : string) : bool :=
  match rest with
  | EmptyString => true
  | String c _ => Ascii.eqb c "," || Ascii.eqb c Json.newline
  end.

(** The decoder reads the text of [j] back, at any nesting level, in
    front of any delimited rest and with any sufficient fuel. *)
Definition reads_back (j : json) : Prop :=
  forall level rest fuel,
    wf_json j = true -> (size j <= fuel)%nat -> delimited rest = true ->
    Json.parse_value fuel (Json.encode level j ++ rest) = Some (j, rest).

(** The elements of an array, as the encoder lays them out. *)
Definition array_tail (level : nat) (xs : list json) (rest : string) : string :=
  Json.join_items (Json.encode (S level)) ("," ++ Json.newline_indent (S level)) xs
  ++ Json.newline_indent level ++ "]" ++ rest.

(** The members of an object, as the encoder lays them out. *)
Definition object_tail (level : nat) (kvs : dict) (rest : string) : string :=
  Json.join_items
    (fun kv' => Json.encode_str (fst kv') ++ ": " ++ Json.encode (S level) (snd kv'))
    ("," ++ Json.newline_indent (S level)) kvs
  ++ Json.newline_indent level ++ "}" ++ rest.

(** A bridge that echoes: the body of its answer is the body of the
    request. *)
Definition echoes (server : Request -> HttpOutcome) : Prop :=
  forall r b, body r = Some b ->
    exists resp, server r = Responds resp /\ json_ resp = Returns b.

(** An echoing bridge: it answers a request that has a body with the
    given status and that body. *)
Definition echo (status : Z) : Request -> HttpOutcome :=
  fun r =>
    match body r with
    | Some b => Responds {| status_code := status; text := Json.dumps b;
                            decoded_body := IsJson b |}
    | None => Responds {| status_code := 400; text := "";
                          decoded_body :=
                            NotJson "Expecting value: line 1 column 1 (char 0)" |}
    end.

(* ------------------------------------------------------------------ *)
(** ** Further definitions used in the statements *)
(* ------------------------------------------------------------------ *)

(** The request that a bridge client method builds on the handle [c]. *)
Definition request_on (w : World) (c : AsyncClient) (m : http_method)
  (path : string) (b : option json) : Request :=
  {| method := m; url := base_url (bridge w) ++ path;
     req_headers := headers c; body := b |}.

(** The client has no usable handle: none yet, or a closed one. *)
Definition no_open_handle (b : BridgeClient) : Prop :=
  match _client b with
  | Some c => is_closed c = true
  | None => True
  end.

(** The operations on a [ToolCache] after its construction. *)
Inductive cache_op : Type :=
| OpSet (tools : json) (now : Z)
| OpInvalidate.

Definition apply_cache_op (c : ToolCache) (op : cache_op) : ToolCache :=
  match op with
  | OpSet tools now => ToolCache.set c tools now
  | OpInvalidate => ToolCache.invalidate c
  end.

Definition run_cache_ops (c : ToolCache) (ops : list cache_op) : ToolCache :=
  fold_left apply_cache_op ops c.

(** The catalog of the last [set] among [ops], or [held] if there is none. *)
Fixpoint last_set (held : json) (ops : list cache_op) : json :=
  match ops with
  | [] => held
  | OpSet tools _ :: ops' => last_set tools ops'
  | OpInvalidate :: ops' => last_set held ops'
  end.

(** The timestamp that [ops] leave: the time of the last [set] if no
    [invalidate] follows it, zero after an [invalidate]. *)
Fixpoint last_stamp (stamp : Z) (ops : list cache_op) : Z :=
  match ops with
  | [] => stamp
  | OpSet _ now :: ops' => last_stamp now ops'
  | OpInvalidate :: ops' => last_stamp 0 ops'
  end.

(** The fields of the raw tool object that may be absent have the types
    of a tool descriptor: the description, when present, is a string or
    [null], the input schema, when present, is an object. *)
Definition typed_fields (d : dict) : bool :=
  match dict_get d "description" with
  | Some (JStr _) | Some JNull | None => true
  | Some _ => false
  end
  && match dict_get d "inputSchema" with
     | Some (JObj _) | None => true
     | Some _ => false
     end.

(** The raw tool object has a string for its name and typed fields. *)
Definition well_typed_tool (d : dict) : bool :=
  match dict_get d "name" with
  | Some (JStr _) => typed_fields d
  | _ => false
  end.

(** The raw tool object has the key [name]. *)
Definition has_name (d : dict) : bool :=
  match dict_get d "name" with
  | Some _ => true
  | None => false
  end.

(* ================================================================== *)
(** * Properties *)
(* ================================================================== *)

(** ** Tool cache *)

Lemma expired_spec (c : ToolCache) (t : Z) :
  ToolCache.expired c t = true <-> t - _fetched_at c > ttl c.
Proof.
  unfold ToolCache.expired. rewrite Z.gtb_gt. lia.
Qed.

Lemma get_fresh (c : ToolCache) (t : Z) :
  t - _fetched_at c <= ttl c -> ToolCache.get c t = _tools c.
Proof.
  intros H. unfold ToolCache.get.
  destruct (ToolCache.expired c t) eqn:E; [|reflexivity].
  apply expired_spec in E. lia.
Qed.

Lemma get_stale (c : ToolCache) (t : Z) :
  t - _fetched_at c > ttl c -> ToolCache.get c t = JNull.
Proof.
  intros H. unfold ToolCache.get.
  apply expired_spec in H. now rewrite H.
Qed.

(** C3, as the code has it.  After [set] of a catalog at time [t0] in a
    cache of TTL [t], [get] at elapsed time [e] returns the stored catalog
    iff [e <= t] and returns [None] iff [e > t]; at the boundary [e = t]
    the catalog is still fresh and is returned. *)
Theorem cache_get_after_set (c : ToolCache) (l : list json) (t0 e : Z) :
  let c' := ToolCache.set c (JArr l) t0 in
  (ToolCache.get c' (t0 + e) = JArr l <-> e <= ttl c) /\
  (ToolCache.get c' (t0 + e) = JNull <-> e > ttl c) /\
  ToolCache.get c' (t0 + ttl c) = JArr l.
Proof.
  cbn zeta.
  assert (Hfresh : forall d, d <= ttl c ->
            ToolCache.get (ToolCache.set c (JArr l) t0) (t0 + d) = JArr l).
  { intros d Hd. rewrite get_fresh; [reflexivity|]. cbn. lia. }
  assert (Hstale : forall d, d > ttl c ->
            ToolCache.get (ToolCache.set c (JArr l) t0) (t0 + d) = JNull).
  { intros d Hd. apply get_stale. cbn. lia. }
  repeat split.
  - intros H. destruct (Z_le_gt_dec e (ttl c)) as [Hle|Hgt]; [exact Hle|].
    rewrite (Hstale e Hgt) in H. discriminate.
  - apply Hfresh.
  - intros H. destruct (Z_le_gt_dec e (ttl c)) as [Hle|Hgt]; [|exact Hgt].
    rewrite (Hfresh e Hle) in H. discriminate.
  - apply Hstale.
  - apply Hfresh. lia.
Qed.

(** C3 as stated fails at the boundary: with TTL 300, a catalog set at
    time 1000 is still returned at time 1300. *)
Lemma cache_boundary_is_fresh :
  let c := ToolCache.set (ToolCache.__init__ 300) (JArr [JObj [("name", JStr "x")]]) 1000 in
  1300 - _fetched_at c = ttl c /\
  ToolCache.get c 1300 = JArr [JObj [("name", JStr "x")]] /\
  ToolCache.get c 1300 <> JNull.
Proof.
  cbn. repeat split. discriminate.
Qed.

(** C4, as the code has it.  At a time [now] beyond the TTL [t], [get]
    returns [None] on a cache that was never set and on a cache that was
    invalidated, however recently it had been set; the payload stays in
    [_tools] in both cases. *)
Theorem cache_unset_or_invalidated (t now : Z) (Hnow : now > t) :
  ToolCache.get (ToolCache.__init__ t) now = JNull /\
  _tools (ToolCache.__init__ t) = JArr [] /\
  (forall c, ttl c = t ->
     ToolCache.get (ToolCache.invalidate c) now = JNull /\
     _tools (ToolCache.invalidate c) = _tools c) /\
  (forall c tools t0, ttl c = t ->
     ToolCache.get (ToolCache.invalidate (ToolCache.set c tools t0)) now = JNull /\
     _tools (ToolCache.invalidate (ToolCache.set c tools t0)) = tools).
Proof.
  repeat split.
  - apply get_stale. cbn. lia.
  - apply get_stale. cbn. lia.
  - apply get_stale. cbn. lia.
Qed.

Lemma cache_unset_or_invalidated_witness :
  1800000000 > 300 /\
  ToolCache.get (ToolCache.invalidate
                   (ToolCache.set (ToolCache.__init__ 300) (JArr [JStr "t"]) 1799999999))
    1800000000 = JNull.
Proof.
  split; [lia|].
  apply (cache_unset_or_invalidated 300 1800000000); [lia | reflexivity].
Defined.

(** C4 as stated fails when the TTL is not smaller than the clock reading:
    the zero timestamp is then within the freshness window, and [get]
    returns the held payload on a cache never set and after [invalidate]. *)
Lemma cache_zero_timestamp_within_ttl :
  let t := 2000000000 in
  let now := 1800000000 in
  ToolCache.get (ToolCache.__init__ t) now = JArr [] /\
  ToolCache.get (ToolCache.invalidate
                   (ToolCache.set (ToolCache.__init__ t) (JArr [JStr "t"]) 1799999999))
    now = JArr [JStr "t"].
Proof.
  cbn. split; reflexivity.
Qed.

(** ** Translation of raw tools *)


(** One raw tool object: the constructor gets the value of [name], the
    value of [description] or the empty string, and the value of
    [inputSchema] or the default schema. *)
Lemma to_mcp_tool_object (d : dict) :
  to_mcp_tool (JObj d)
  = match dict_get d "name" with
    | Some n => new_Tool n (dict_get_default d "description" (JStr ""))
                  (dict_get_default d "inputSchema" default_schema)
    | None => Raises (KeyError "name")
    end.
Proof.
  unfold to_mcp_tool. cbn [getitem get_method].
  destruct (dict_get d "name"); reflexivity.
Qed.


(** What the constructor returns is the record of its arguments. *)
Lemma new_Tool_returns (n de s : json) (x : Tool) :
  new_Tool n de s = Returns x ->
  x = {| name := n; description := de; inputSchema := s |}.
Proof.
  unfold new_Tool.
  destruct n; try discriminate; destruct de; try discriminate;
    destruct s; try discriminate; now intros [= <-].
Qed.




(** ** Bridge client: request URLs *)

Lemma append_nil_r (s : string) : s ++ "" = s.
Proof.
  induction s as [|c s IH]; cbn; [reflexivity | now rewrite IH].
Qed.

Lemma mem_char_slash (c : ascii) :
  mem_char c "/" = true <-> c = "/"%char.
Proof.
  unfold mem_char. cbn. rewrite orb_false_r. apply Ascii.eqb_eq.
Qed.

(** [rstrip] removes a run of slashes at the end and nothing else. *)
Lemma rstrip_slashes (s : string) :
  exists n, s = rstrip s "/" ++ slashes n.
Proof.
  induction s as [|c s [n IH]].
  - exists O. reflexivity.
  - cbn [rstrip]. destruct (rstrip s "/") as [|a r] eqn:E.
    + cbn in IH. destruct (mem_char c "/") eqn:Hc.
      * apply mem_char_slash in Hc. subst c.
        exists (S n). cbn. now rewrite <- IH.
      * exists n. cbn. now rewrite <- IH.
    + exists n. cbn. cbn in IH. now rewrite <- IH.
Qed.

(** What [rstrip] leaves does not end in a slash. *)
Lemma rstrip_no_trailing_slash (s p : string) :
  rstrip s "/" <> p ++ "/".
Proof.
  revert p. induction s as [|c s IH]; intros p.
  - cbn. destruct p; discriminate.
  - cbn [rstrip]. destruct (rstrip s "/") as [|a r] eqn:E.
    + destruct (mem_char c "/") eqn:Hc.
      * destruct p; discriminate.
      * destruct p as [|c' p]; cbn; intros H.
        -- injection H as H. subst c.
           assert (mem_char "/" "/" = true) by now apply mem_char_slash.
           congruence.
        -- injection H as _ H. destruct p; discriminate.
    + destruct p as [|c' p]; cbn; intros H.
      * discriminate.
      * injection H as _ H. exact (IH p H).
Qed.

(** ** Bridge client: what a call does to the world *)

Lemma get_client_spec (w : World) :
  exists c w', BridgeClient._get_client w = (Returns c, w') /\
               same_but_client w w'.
Proof.
  unfold BridgeClient._get_client, bind, gets, modify, ret.
  destruct (_client (bridge w)) as [c|].
  - destruct (is_closed c); eexists; eexists; (split; [reflexivity|]);
      repeat split.
  - eexists; eexists; (split; [reflexivity|]); repeat split.
Qed.

(** Each operation issues exactly one request, to the base URL followed
    by the path of the operation, and changes nothing but the handle and
    the log of requests. *)
Lemma bridge_health_spec (w : World) :
  exists r w0,
    method r = GET /\ url r = base_url (bridge w) ++ "/health" /\ body r = None /\
    same_but_client w w0 /\
    BridgeClient.health w
    = (checked_json (net w r), with_sent (sent w ++ [r]) w0).
Proof.
  destruct (get_client_spec w) as (c & w0 & Hc & Hsame).
  pose proof Hsame as (_ & Hnet & Hsent & _ & _ & Hurl & _).
  eexists {| method := GET; url := _; req_headers := headers c; body := None |}.
  exists w0. refine (conj eq_refl (conj eq_refl (conj eq_refl (conj Hsame _)))).
  unfold BridgeClient.health, bind. rewrite Hc.
  unfold gets, send, lift, checked_json. rewrite Hnet, Hsent, Hurl.
  destruct (net w _) as [resp|msg]; [|reflexivity].
  destruct (raise_for_status resp); [|reflexivity].
  destruct (json_ resp); reflexivity.
Qed.

Lemma bridge_list_tools_spec (w : World) :
  exists r w0,
    method r = GET /\ url r = base_url (bridge w) ++ "/tools" /\ body r = None /\
    same_but_client w w0 /\
    BridgeClient.list_tools w
    = (tools_field (checked_json (net w r)), with_sent (sent w ++ [r]) w0).
Proof.
  destruct (get_client_spec w) as (c & w0 & Hc & Hsame).
  pose proof Hsame as (_ & Hnet & Hsent & _ & _ & Hurl & _).
  eexists {| method := GET; url := _; req_headers := headers c; body := None |}.
  exists w0. refine (conj eq_refl (conj eq_refl (conj eq_refl (conj Hsame _)))).
  unfold BridgeClient.list_tools, bind. rewrite Hc.
  unfold gets, send, lift, checked_json, tools_field. rewrite Hnet, Hsent, Hurl.
  destruct (net w _) as [resp|msg]; [|reflexivity].
  destruct (raise_for_status resp); [|reflexivity].
  destruct (json_ resp) as [data|e]; [|reflexivity].
  destruct (get_method data "tools" (JArr [])); reflexivity.
Qed.

Lemma bridge_call_tool_spec (tool : string) (args : json) (w : World) :
  exists r w0,
    method r = POST /\ url r = base_url (bridge w) ++ "/tool_call" /\
    body r = Some (JObj [("tool", JStr tool); ("args", args)]) /\
    same_but_client w w0 /\
    BridgeClient.call_tool tool args w
    = (unchecked_json (net w r), with_sent (sent w ++ [r]) w0).
Proof.
  destruct (get_client_spec w) as (c & w0 & Hc & Hsame).
  pose proof Hsame as (_ & Hnet & Hsent & _ & _ & Hurl & _).
  eexists {| method := POST; url := _; req_headers := headers c;
             body := Some _ |}.
  exists w0. refine (conj eq_refl (conj eq_refl (conj eq_refl (conj Hsame _)))).
  unfold BridgeClient.call_tool, bind. rewrite Hc.
  unfold gets, send, lift, unchecked_json. rewrite Hnet, Hsent, Hurl.
  destruct (net w _) as [resp|msg]; [|reflexivity].
  destruct (json_ resp); reflexivity.
Qed.

(** What [_get_client] returns: the open handle if there is one, a new
    handle built from the token and the timeout otherwise. *)
Lemma get_client_cases (w : World) :
  (no_open_handle (bridge w) ->
   BridgeClient._get_client w
   = (Returns (BridgeClient.new_client (bridge w)),
      with_bridge (BridgeClient.set_client
                     (BridgeClient.new_client (bridge w)) (bridge w)) w)) /\
  (forall c, _client (bridge w) = Some c -> is_closed c = false ->
   BridgeClient._get_client w = (Returns c, w)).
Proof.
  unfold BridgeClient._get_client, bind, gets, modify, ret, no_open_handle.
  split.
  - destruct (_client (bridge w)) as [c|]; [|reflexivity].
    intros H. now rewrite H.
  - intros c Hc Ho. now rewrite Hc, Ho.
Qed.

(** The three methods, run on the handle that [_get_client] returns. *)
Lemma bridge_methods_on_handle (w : World) :
  exists c w0,
    BridgeClient._get_client w = (Returns c, w0) /\ same_but_client w w0 /\
    BridgeClient.health w
    = (checked_json (net w (request_on w c GET "/health" None)),
       with_sent (sent w ++ [request_on w c GET "/health" None]) w0) /\
    BridgeClient.list_tools w
    = (tools_field (checked_json (net w (request_on w c GET "/tools" None))),
       with_sent (sent w ++ [request_on w c GET "/tools" None]) w0) /\
    forall tool args,
      BridgeClient.call_tool tool args w
      = (unchecked_json
           (net w (request_on w c POST "/tool_call"
                     (Some (JObj [("tool", JStr tool); ("args", args)])))),
         with_sent
           (sent w ++ [request_on w c POST "/tool_call"
                         (Some (JObj [("tool", JStr tool); ("args", args)]))])
           w0).
Proof.
  destruct (get_client_spec w) as (c & w0 & Hc & Hsame).
  pose proof Hsame as (_ & Hnet & Hsent & _ & _ & Hurl & _).
  exists c, w0. refine (conj Hc (conj Hsame _)).
  unfold request_on. repeat split.
  - unfold BridgeClient.health, bind. rewrite Hc.
    unfold gets, send, lift, checked_json. rewrite Hnet, Hsent, Hurl.
    destruct (net w _) as [resp|msg]; [|reflexivity].
    destruct (raise_for_status resp); [|reflexivity].
    destruct (json_ resp); reflexivity.
  - unfold BridgeClient.list_tools, bind. rewrite Hc.
    unfold gets, send, lift, checked_json, tools_field.
    rewrite Hnet, Hsent, Hurl.
    destruct (net w _) as [resp|msg]; [|reflexivity].
    destruct (raise_for_status resp); [|reflexivity].
    destruct (json_ resp) as [data|e]; [|reflexivity].
    destruct (get_method data "tools" (JArr [])); reflexivity.
  - intros tool args.
    unfold BridgeClient.call_tool, bind. rewrite Hc.
    unfold gets, send, lift, unchecked_json. rewrite Hnet, Hsent, Hurl.
    destruct (net w _) as [resp|msg]; [|reflexivity].
    destruct (json_ resp); reflexivity.
Qed.

(** C10.  The constructor removes every trailing slash of its [base_url]
    argument and nothing else, so the stored base does not end in a
    slash; each of the three operations issues one request, whose URL is
    the stored base, one slash and the path segment of the operation. *)
Theorem bridge_request_urls (configured_url token : string) (timeout : Z) :
  let b := BridgeClient.__init__ configured_url token timeout in
  (exists n, configured_url = base_url b ++ slashes n) /\
  (forall p, base_url b <> p ++ "/") /\
  forall w, base_url (bridge w) = base_url b ->
    (exists r, sent (snd (BridgeClient.health w)) = (sent w ++ [r])%list /\
               url r = base_url b ++ "/" ++ "health") /\
    (exists r, sent (snd (BridgeClient.list_tools w)) = (sent w ++ [r])%list /\
               url r = base_url b ++ "/" ++ "tools") /\
    (forall tool args,
      exists r, sent (snd (BridgeClient.call_tool tool args w)) = (sent w ++ [r])%list /\
                url r = base_url b ++ "/" ++ "tool_call").
Proof.
  cbn zeta. cbn [BridgeClient.__init__ base_url].
  split; [apply rstrip_slashes|].
  split; [intros p; apply rstrip_no_trailing_slash|].
  intros w Hw. repeat split.
  - destruct (bridge_health_spec w) as (r & w0 & _ & Hu & _ & _ & E).
    exists r. rewrite E, Hu, Hw. split; reflexivity.
  - destruct (bridge_list_tools_spec w) as (r & w0 & _ & Hu & _ & _ & E).
    exists r. rewrite E, Hu, Hw. split; reflexivity.
  - intros tool args.
    destruct (bridge_call_tool_spec tool args w) as (r & w0 & _ & Hu & _ & _ & E).
    exists r. rewrite E, Hu, Hw. split; reflexivity.
Qed.

Lemma bridge_request_urls_witness :
  let w := world_at unreachable (ToolCache.__init__ 300) 1800000000 in
  exists r, sent (snd (BridgeClient.list_tools w)) = [r] /\
            url r = "http://localhost:9333/tools".
Proof.
  cbn zeta.
  destruct (bridge_request_urls "http://localhost:9333/" "" 30) as (_ & _ & H).
  destruct (H (world_at unreachable (ToolCache.__init__ 300) 1800000000) eq_refl)
    as (_ & Ht & _).
  exact Ht.
Defined.

(** ** The handler of "list tools" *)

Lemma list_tools_hit (w : World) :
  ToolCache.get (cache w) (now w) <> JNull ->
  list_tools w
  = (_to_mcp_tools (ToolCache.get (cache w) (now w)), with_ticks (S (ticks w)) w).
Proof.
  intros H. unfold list_tools, cache_get, bind, time_time, gets, ret, lift.
  cbn [cache with_ticks].
  destruct (ToolCache.get (cache w) (now w)); cbn; try reflexivity.
  now elim H.
Qed.

(** A translation that fails on a container fails again on the same
    container in the handler, which finds it in the cache. *)
Lemma to_mcp_tools_raises_truthy (l : list json) (e : exn) :
  _to_mcp_tools (JArr l) = Raises e -> truthy (JArr l) = true.
Proof.
  destruct l; [discriminate | reflexivity].
Qed.

(** On a miss, with [out] the outcome of the bridge client's [list_tools]. *)
Lemma list_tools_miss (w : World) (out : outcome json) (w2 : World) :
  ToolCache.get (cache w) (now w) = JNull ->
  BridgeClient.list_tools (with_ticks (S (ticks w)) w) = (out, w2) ->
  list_tools w =
  match out with
  | Returns raw =>
      let w3 := with_cache (ToolCache.set (cache w2) raw (now w2))
                  (with_ticks (S (ticks w2)) w2) in
      match len raw with
      | Returns _ =>
          match _to_mcp_tools raw with
          | Returns ts => (Returns ts, w3)
          | Raises _ =>
              if truthy raw then (_to_mcp_tools raw, w3) else (Returns [], w3)
          end
      | Raises _ =>
          if truthy raw then (_to_mcp_tools raw, w3) else (Returns [], w3)
      end
  | Raises _ =>
      if truthy (_tools (cache w2)) then (_to_mcp_tools (_tools (cache w2)), w2)
      else (Returns [], w2)
  end.
Proof.
  intros Hget Hb.
  unfold list_tools, cache_get, bind, time_time, gets, ret.
  cbn [cache with_ticks]. rewrite Hget. cbn [is_None negb].
  unfold try_except, bind. rewrite Hb.
  destruct out as [raw|e].
  - unfold cache_set, bind, time_time, gets, modify, lift.
    cbn [cache with_ticks with_cache _tools ToolCache.set].
    destruct (len raw); cbn [cache with_cache _tools ToolCache.set];
      destruct (_to_mcp_tools raw), (truthy raw); reflexivity.
  - unfold lift. destruct (truthy (_tools (cache w2))); reflexivity.
Qed.

Lemma bridge_list_tools_frame (w : World) (out : outcome json) (w2 : World) :
  BridgeClient.list_tools w = (out, w2) ->
  cache w2 = cache w /\ clock w2 = clock w /\ ticks w2 = ticks w /\
  exists r, sent w2 = (sent w ++ [r])%list /\ method r = GET /\
            url r = base_url (bridge w) ++ "/tools" /\
            out = tools_field (checked_json (net w r)).
Proof.
  destruct (bridge_list_tools_spec w)
    as (r & w0 & Hm & Hu & _ & (Hc & _ & _ & Hk & Ht & _) & E).
  rewrite E. intros [= <- <-]. cbn.
  repeat split; try assumption.
  exists r. repeat split; assumption.
Qed.




(** The ways in which the bridge client's [list_tools] raises: the
    transport fails, the status is not 2xx, the body is not JSON, or the
    body is JSON but not an object. *)
Lemma bridge_list_tools_failures (w : World) :
  (forall msg, (forall r, net w r = Fails msg) ->
     fst (BridgeClient.list_tools w) = Raises (TransportError msg)) /\
  (forall resp, (forall r, net w r = Responds resp) ->
     (status_code resp <? 200) || (299 <? status_code resp) = true ->
     exists msg, fst (BridgeClient.list_tools w)
                 = Raises (HTTPStatusError msg (status_code resp) (text resp))) /\
  (forall resp msg, (forall r, net w r = Responds resp) ->
     raise_for_status resp = Returns tt ->
     decoded_body resp = NotJson msg ->
     fst (BridgeClient.list_tools w) = Raises (JSONDecodeError msg)) /\
  (forall resp data, (forall r, net w r = Responds resp) ->
     raise_for_status resp = Returns tt ->
     decoded_body resp = IsJson data ->
     (forall d, data <> JObj d) ->
     exists msg, fst (BridgeClient.list_tools w) = Raises (AttributeError msg)).
Proof.
  destruct (bridge_list_tools_spec w) as (r & w0 & _ & _ & _ & _ & E).
  rewrite E. cbn [fst]. repeat split.
  - intros msg H. now rewrite H.
  - intros resp H Hs. rewrite H. cbn [checked_json]. unfold raise_for_status.
    replace ((200 <=? status_code resp) && (status_code resp <=? 299))
      with false by lia.
    eexists. reflexivity.
  - intros resp msg H Hs Hd. rewrite H. cbn [checked_json].
    rewrite Hs. unfold json_. now rewrite Hd.
  - intros resp data H Hs Hd Hn. rewrite H. cbn [checked_json].
    rewrite Hs. unfold json_. rewrite Hd. cbn [tools_field].
    destruct data; try (eexists; reflexivity). now elim (Hn d).
Qed.

(** The fallback, as far as it goes: when the cache has expired and holds
    the catalog [l], and the bridge client's [list_tools] raises, whatever
    the exception, the outcome of the handler is the outcome of
    translating [l], and the cache is left as it was; on a cache that was
    never set the result is the empty list. *)
Lemma list_tools_fallback (w : World) (e : exn) (w2 : World)
  (Hfail : BridgeClient.list_tools (with_ticks (S (ticks w)) w) = (Raises e, w2)) :
  (forall l, ToolCache.expired (cache w) (now w) = true ->
             _tools (cache w) = JArr l ->
             list_tools w = (_to_mcp_tools (JArr l), w2) /\ cache w2 = cache w) /\
  (forall t, cache w = ToolCache.__init__ t -> fst (list_tools w) = Returns []).
Proof.
  destruct (bridge_list_tools_frame _ _ _ Hfail) as (Hc & _).
  cbn in Hc.
  assert (Hmiss : forall l, ToolCache.expired (cache w) (now w) = true ->
            _tools (cache w) = JArr l ->
            list_tools w = (_to_mcp_tools (JArr l), w2)).
  { intros l Hexp Hl.
    assert (Hget : ToolCache.get (cache w) (now w) = JNull)
      by (unfold ToolCache.get; now rewrite Hexp).
    rewrite (list_tools_miss w _ w2 Hget Hfail), Hc, Hl.
    destruct l; reflexivity. }
  split.
  - intros l Hexp Hl. split; [now apply Hmiss | exact Hc].
  - intros t Ht.
    destruct (ToolCache.expired (cache w) (now w)) eqn:Hexp.
    + rewrite (Hmiss [] eq_refl); [reflexivity | now rewrite Ht].
    + assert (Hget : ToolCache.get (cache w) (now w) = JArr []).
      { unfold ToolCache.get. rewrite Hexp, Ht. reflexivity. }
      rewrite list_tools_hit; rewrite Hget; [reflexivity | discriminate].
Qed.

(** The fallback returns the stored catalog translated whenever the
    stored catalog can be translated. *)
Lemma list_tools_fallback_translated (w : World) (e : exn) (w2 : World)
  (l : list json) (ts : list Tool) :
  BridgeClient.list_tools (with_ticks (S (ticks w)) w) = (Raises e, w2) ->
  ToolCache.expired (cache w) (now w) = true ->
  _tools (cache w) = JArr l ->
  _to_mcp_tools (JArr l) = Returns ts ->
  list_tools w = (Returns ts, w2) /\ _tools (cache w2) = JArr l.
Proof.
  intros Hfail Hexp Hl Hts.
  destruct (list_tools_fallback w e w2 Hfail) as [H _].
  destruct (H l Hexp Hl) as [Hr Hc].
  rewrite Hr, Hts, Hc, Hl. split; reflexivity.
Qed.

(** C6 fails on the code, by the defect of C1.  A first call, on an empty
    cache, gets a catalog with a tool object without a name from the
    bridge: the catalog is stored before its translation raises.  At a
    later call the cache has expired and the bridge cannot be reached:
    the handler of the exception translates the stored catalog outside
    any [try], and [KeyError] leaves the handler of "list tools" instead
    of a list. *)
Theorem list_tools_fallback_raises_on_stored_catalog :
  let raw := JArr [JObj [("description", JStr "Click an element")]] in
  let w1 := world_at (answers 200 (JObj [("tools", raw)]))
              (ToolCache.__init__ 300) 1800000000 in
  let w2 := later unreachable 1800001000 (snd (list_tools w1)) in
  _tools (cache w2) = raw /\
  ToolCache.expired (cache w2) (now w2) = true /\
  fst (BridgeClient.list_tools (with_ticks (S (ticks w2)) w2))
  = Raises (TransportError "All connection attempts failed") /\
  fst (list_tools w2) = Raises (KeyError "name").
Proof.
  vm_compute. repeat split.
Qed.

Lemma translatable_len (v : json) :
  translatable v -> exists n, len v = Returns n.
Proof.
  intros [ts H]. destruct v; cbn in H; try discriminate; eexists; reflexivity.
Qed.

(** The part of C1 that holds: when what the cache holds and what the
    bridge returns can be translated, the handler returns a list, whether
    the cache is empty, fresh or stale and whether the bridge answers or
    not. *)
Lemma list_tools_returns (w : World) :
  translatable (_tools (cache w)) ->
  (forall raw w2,
     BridgeClient.list_tools (with_ticks (S (ticks w)) w) = (Returns raw, w2) ->
     translatable raw) ->
  exists ts, fst (list_tools w) = Returns ts.
Proof.
  intros Hheld Hraw.
  destruct (ToolCache.get (cache w) (now w)) eqn:Hget.
  1: { destruct (BridgeClient.list_tools (with_ticks (S (ticks w)) w))
         as [out w2] eqn:Hb.
       rewrite (list_tools_miss w out w2 Hget Hb).
       destruct out as [raw|e].
       - destruct (Hraw raw w2 eq_refl) as [ts Hts].
         destruct (translatable_len raw (ex_intro _ ts Hts)) as [n Hn].
         cbn zeta. rewrite Hn, Hts. exists ts. reflexivity.
       - destruct (bridge_list_tools_frame _ _ _ Hb) as (Hc & _).
         cbn in Hc. rewrite Hc. destruct Hheld as [ts Hts]. rewrite Hts.
         destruct (truthy (_tools (cache w))); eexists; reflexivity. }
  all: rewrite list_tools_hit; rewrite Hget; try discriminate;
    assert (Hex : ToolCache.expired (cache w) (now w) = false)
      by (unfold ToolCache.get in Hget;
          destruct (ToolCache.expired (cache w) (now w));
          [discriminate | reflexivity]);
    unfold ToolCache.get in Hget; rewrite Hex in Hget;
    rewrite Hget in Hheld; destruct Hheld as [ts Hts];
    exists ts; exact Hts.
Qed.

(** C1 fails on the code: the cache is empty, the bridge is reachable and
    returns a tool object without a name.  The raw catalog is stored
    before it is translated; the translation raises [KeyError] inside the
    [try], and the handler of the exception translates the catalog it
    finds in the cache, which is the same one: the [KeyError] leaves the
    handler of "list tools". *)
Theorem list_tools_raises_on_nameless_tool :
  let raw := JArr [JObj [("description", JStr "Click an element")]] in
  let w := world_at (answers 200 (JObj [("tools", raw)]))
             (ToolCache.__init__ 300) 1800000000 in
  fst (list_tools w) = Raises (KeyError "name") /\
  _tools (cache (snd (list_tools w))) = raw.
Proof.
  vm_compute. split; reflexivity.
Qed.

(** ** The handler of "call tool" *)

Lemma call_tool_spec (name : string) (arguments : json) (w : World) :
  exists r w0,
    method r = POST /\ url r = base_url (bridge w) ++ "/tool_call" /\
    body r = Some (JObj [("tool", JStr name); ("args", arguments)]) /\
    same_but_client w w0 /\
    call_tool name arguments w
    = (Returns [text_content (call_tool_text (unchecked_json (net w r)))],
       with_sent (sent w ++ [r]) w0).
Proof.
  destruct (bridge_call_tool_spec name arguments w)
    as (r & w0 & Hm & Hu & Hb & Hsame & E).
  exists r, w0. refine (conj Hm (conj Hu (conj Hb (conj Hsame _)))).
  unfold call_tool, try_except, bind. rewrite E.
  destruct (unchecked_json (net w r)) as [j|e]; [reflexivity|].
  destruct e; reflexivity.
Qed.

(** The part of C2 that holds: the handler never raises and returns
    exactly one text item, whatever the bridge does. *)
Lemma call_tool_one_text_item (name : string) (arguments : json) (w : World) :
  exists s, fst (call_tool name arguments w) = Returns [text_content s].
Proof.
  destruct (call_tool_spec name arguments w) as (r & w0 & _ & _ & _ & _ & E).
  rewrite E. eexists. reflexivity.
Qed.

(** The status handler does what C2 says: the text it builds for an
    [HTTPStatusError] has the status code. *)
Lemma contains_prefix (s sub : string) :
  String.prefix sub s = true -> contains s sub = true.
Proof.
  intros H. destruct s; cbn [contains]; now rewrite H.
Qed.

Lemma contains_append_r (a s sub : string) :
  contains s sub = true -> contains (a ++ s) sub = true.
Proof.
  intros H. induction a as [|c a IH]; [exact H|].
  cbn [append contains]. rewrite IH. apply orb_true_r.
Qed.

Lemma prefix_append (a b : string) : String.prefix a (a ++ b) = true.
Proof.
  induction a as [|c a IH]; cbn.
  - now destruct b.
  - destruct (ascii_dec c c) as [_|n]; [exact IH | now elim n].
Qed.

Lemma status_handler_text (msg : string) (code : Z) (body_text : string) :
  contains (call_tool_text (Raises (HTTPStatusError msg code body_text)))
    (str_int code) = true.
Proof.
  cbn [call_tool_text].
  apply contains_append_r, contains_prefix, prefix_append.
Qed.

(** But no [HTTPStatusError] comes out of the bridge client's
    [call_tool]: a response is decoded whatever its status. *)
Lemma bridge_call_tool_no_status_error (tool : string) (args : json)
  (w : World) (msg : string) (code : Z) (body_text : string) :
  fst (BridgeClient.call_tool tool args w)
  <> Raises (HTTPStatusError msg code body_text).
Proof.
  destruct (bridge_call_tool_spec tool args w) as (r & w0 & _ & _ & _ & _ & E).
  rewrite E. cbn [fst]. unfold unchecked_json, json_.
  destruct (net w r) as [resp|m]; [|discriminate].
  destruct (decoded_body resp); discriminate.
Qed.

(** C2 fails on the code: the bridge client's [call_tool] does not check
    the status, so no [HTTPStatusError] reaches the handler.  A response
    500 with a JSON body is rendered like a result, a response 503 whose
    body is not JSON as the decoder's error; neither text has the status
    code. *)
Theorem call_tool_drops_status_code :
  let w1 := world_at (answers 500 (JObj [("error", JStr "boom")]))
              (ToolCache.__init__ 300) 1800000000 in
  let w2 := world_at (answers_text 503 "Service Unavailable")
              (ToolCache.__init__ 300) 1800000000 in
  fst (call_tool "click" (JObj []) w1)
  = Returns [text_content (Json.dumps (JObj [("error", JStr "boom")]))] /\
  contains (Json.dumps (JObj [("error", JStr "boom")])) "500" = false /\
  fst (call_tool "click" (JObj []) w2)
  = Returns [text_content "Error: Expecting value: line 1 column 1 (char 0)"] /\
  contains "Error: Expecting value: line 1 column 1 (char 0)" "503" = false.
Proof.
  vm_compute. repeat split.
Qed.

(** ** Configuration *)

Lemma dict_get_set (d : dict) (k k' : string) (v : json) :
  dict_get (dict_set d k' v) k
  = if String.eqb k k' then Some v else dict_get d k.
Proof.
  induction d as [|[k0 v0] d IH]; cbn.
  - destruct (String.eqb k k'); reflexivity.
  - destruct (String.eqb k' k0) eqn:E0; cbn.
    + apply String.eqb_eq in E0. subst k0.
      destruct (String.eqb k k'); reflexivity.
    + rewrite IH. destruct (String.eqb k k0) eqn:E1; [|reflexivity].
      apply String.eqb_eq in E1. subst k0.
      rewrite String.eqb_sym in E0. now rewrite E0.
Qed.

Lemma dict_get_absent (d : dict) (k : string) :
  existsb (String.eqb k) (keys d) = false -> dict_get d k = None.
Proof.
  induction d as [|[k0 v0] d IH]; cbn; [reflexivity|].
  intros H. apply orb_false_elim in H as [H1 H2].
  rewrite H1. now apply IH.
Qed.

(** After [d.update(other)] a key has the value of [other] if [other]
    binds it, and the value it had otherwise. *)
Lemma dict_get_update (other d : dict) (k : string) :
  distinct (keys other) = true ->
  dict_get (dict_update d other) k
  = match dict_get other k with
    | Some v => Some v
    | None => dict_get d k
    end.
Proof.
  unfold dict_update. revert d.
  induction other as [|[k0 v0] other IH]; intros d Hd; cbn; [reflexivity|].
  cbn in Hd. apply andb_prop in Hd as [Hk0 Hd].
  rewrite (IH _ Hd), dict_get_set.
  destruct (String.eqb k k0) eqn:E; [|reflexivity].
  apply String.eqb_eq in E. subst k0.
  apply negb_true_iff in Hk0.
  now rewrite (dict_get_absent other k Hk0).
Qed.

Lemma dict_get_env_override (env : environ) (var key : string) (d : dict)
  (k : string) :
  dict_get (env_override env var key d) k
  = match env var with
    | Some v =>
        if String.eqb v "" then dict_get d k
        else if String.eqb k key then Some (JStr v) else dict_get d k
    | None => dict_get d k
    end.
Proof.
  unfold env_override. destruct (env var) as [v|]; [|reflexivity].
  destruct (String.eqb v ""); [reflexivity|]. apply dict_get_set.
Qed.

(** C9, as the code has it.  [bridge_url], [bridge_token] and [log_level]
    take the value of their environment variable when it is set and not
    empty, otherwise the value of the file when the file binds the key,
    otherwise the built-in default.  [tool_cache_ttl_seconds] and
    [request_timeout_seconds] have no environment variable: they take the
    value of the file, otherwise the default. *)
Theorem load_config_precedence (file : config_file) (env : environ)
  (Hfile : is_dict file) :
  let cfg := _load_config file env in
  dict_get cfg "bridge_url"
  = Some (env_file_or_default env "BROWSERCLAW_BRIDGE_URL" file "bridge_url"
            (JStr "http://localhost:9333")) /\
  dict_get cfg "bridge_token"
  = Some (env_file_or_default env "BROWSERCLAW_BRIDGE_TOKEN" file "bridge_token"
            (JStr "")) /\
  dict_get cfg "log_level"
  = Some (env_file_or_default env "BROWSERCLAW_LOG_LEVEL" file "log_level"
            (JStr "INFO")) /\
  dict_get cfg "tool_cache_ttl_seconds"
  = Some (file_or_default file "tool_cache_ttl_seconds" (JNum 300)) /\
  dict_get cfg "request_timeout_seconds"
  = Some (file_or_default file "request_timeout_seconds" (JNum 30)).
Proof.
  cbn zeta. unfold _load_config.
  set (d0 := match file with
             | Loaded cfg => dict_update defaults cfg
             | _ => defaults
             end).
  assert (H0 : forall k default, dict_get defaults k = Some default ->
                 dict_get d0 k = Some (file_or_default file k default)).
  { intros k default Hk. unfold d0, file_or_default, file_value.
    destruct file as [| |cfg]; try exact Hk.
    rewrite (dict_get_update cfg defaults k Hfile), Hk.
    destruct (dict_get cfg k); reflexivity. }
  rewrite !dict_get_env_override. cbn [String.eqb Ascii.eqb Bool.eqb].
  unfold env_file_or_default.
  rewrite (H0 "bridge_url" _ eq_refl), (H0 "bridge_token" _ eq_refl),
    (H0 "log_level" _ eq_refl), (H0 "tool_cache_ttl_seconds" _ eq_refl),
    (H0 "request_timeout_seconds" _ eq_refl).
  repeat split;
    destruct (env "BROWSERCLAW_BRIDGE_URL") as [u|];
    destruct (env "BROWSERCLAW_BRIDGE_TOKEN") as [t|];
    destruct (env "BROWSERCLAW_LOG_LEVEL") as [g|];
    try destruct (String.eqb u ""); try destruct (String.eqb t "");
    try destruct (String.eqb g ""); reflexivity.
Qed.

Lemma load_config_precedence_witness :
  is_dict example_file /\
  dict_get (_load_config example_file example_environ) "bridge_url"
  = Some (JStr "http://bridge:9000/") /\
  dict_get (_load_config example_file example_environ) "tool_cache_ttl_seconds"
  = Some (JNum 60).
Proof.
  assert (H : is_dict example_file) by reflexivity.
  split; [exact H|].
  destruct (load_config_precedence example_file example_environ H)
    as (Hu & _ & _ & Ht & _).
  split; [exact Hu | exact Ht].
Defined.

(** C9 as stated fails twice.  With every environment variable set to
    "60" the TTL and the timeout keep their defaults, so no variable
    overrides them; and a variable that is set to the empty string does
    not override the value of the file. *)
Lemma load_config_env_not_always_override :
  dict_get (_load_config FileNotFound (fun _ => Some "60")) "tool_cache_ttl_seconds"
  = Some (JNum 300) /\
  dict_get (_load_config FileNotFound (fun _ => Some "60")) "request_timeout_seconds"
  = Some (JNum 30) /\
  example_environ "BROWSERCLAW_BRIDGE_TOKEN" = Some "" /\
  dict_get (_load_config example_file example_environ) "bridge_token"
  = Some (JStr "s3cret").
Proof.
  vm_compute. repeat split.
Qed.

(** ** The decoder reads what the encoder writes *)

Lemma append_assoc (a b c : string) : (a ++ b) ++ c = a ++ (b ++ c).
Proof.
  induction a as [|x a IH]; cbn; [reflexivity | now rewrite IH].
Qed.

Lemma length_append (a b : string) :
  String.length (a ++ b) = (String.length a + String.length b)%nat.
Proof.
  induction a as [|x a IH]; cbn; [reflexivity | now rewrite IH].
Qed.

Lemma skip_ws_spaces (n : nat) (s : string) :
  Json.skip_ws (Json.spaces n ++ s) = Json.skip_ws s.
Proof.
  induction n as [|n IH]; [reflexivity | exact IH].
Qed.

Lemma skip_ws_newline_indent (level : nat) (s : string) :
  Json.skip_ws (Json.newline_indent level ++ s) = Json.skip_ws s.
Proof.
  unfold Json.newline_indent. cbn [append].
  change (Json.skip_ws (String Json.newline (Json.spaces (2 * level) ++ s)))
    with (Json.skip_ws (Json.spaces (2 * level) ++ s)).
  apply skip_ws_spaces.
Qed.

(** *** Strings *)

Lemma read_string_escape_char (c : ascii) (tail : string) :
  Json.read_string (Json.escape_char c ++ tail)
  = match Json.read_string tail with
    | Some (str, r) => Some (String c str, r)
    | None => None
    end.
Proof.
  destruct c as [[] [] [] [] [] [] [] []]; reflexivity.
Qed.

Lemma read_string_escape (s rest : string) :
  Json.read_string (Json.escape s ++ String Json.dquote rest) = Some (s, rest).
Proof.
  induction s as [|c s IH]; [reflexivity|].
  cbn [Json.escape]. rewrite append_assoc, read_string_escape_char, IH.
  reflexivity.
Qed.

Lemma read_string_encode_str (s rest : string) :
  exists tail, Json.encode_str s ++ rest = String Json.dquote tail /\
               Json.read_string tail = Some (s, rest).
Proof.
  exists (Json.escape s ++ String Json.dquote rest). split.
  - unfold Json.encode_str. cbn [append]. now rewrite append_assoc.
  - apply read_string_escape.
Qed.

(** *** Integers *)

Lemma read_digits_stop (s : string) :
  starts_digit s = false -> Json.read_digits s = (Decimal.Nil, s).
Proof.
  destruct s as [|c s]; cbn; [reflexivity|].
  now destruct (Json.digit_of_char c).
Qed.

Lemma read_digits_string_of_uint (u : Decimal.uint) (rest : string) :
  starts_digit rest = false ->
  Json.read_digits (NilEmpty.string_of_uint u ++ rest) = (u, rest).
Proof.
  intros H. induction u; cbn [NilEmpty.string_of_uint append];
    [now apply read_digits_stop | ..];
    cbn [Json.read_digits]; cbn [Json.digit_of_char nat_of_ascii];
    (cbn; rewrite IHu; reflexivity).
Qed.

(** The digits of a positive number do not start with a zero. *)
Lemma int_literal_to_uint (p : positive) :
  Json.int_literal (Pos.to_uint p) = true.
Proof.
  pose proof (DecimalPos.Unsigned.to_of (Pos.to_uint p)) as H.
  rewrite DecimalPos.Unsigned.of_to in H. cbn in H.
  pose proof (Unsigned.to_uint_nonnil p) as Hnil.
  destruct (Pos.to_uint p) as [|u| | | | | | | | |] eqn:E; try reflexivity.
  - now elim Hnil.
  - destruct u; try reflexivity; exfalso.
    all: rewrite unorm_D0 in H;
      match type of H with
      | _ = Decimal.unorm ?v =>
          assert (Hv : v <> Decimal.Nil) by discriminate;
          pose proof (nb_digits_unorm v Hv) as Hn;
          rewrite <- H in Hn; cbn in Hn; lia
      end.
Qed.

Lemma string_of_uint_start (u : Decimal.uint) (rest : string) :
  u <> Decimal.Nil ->
  exists c tail, NilEmpty.string_of_uint u ++ rest = String c tail /\
                 Json.digit_of_char c <> None /\ Ascii.eqb c "-" = false.
Proof.
  intros H. destruct u; [now elim H | ..]; cbn;
    eexists; eexists; (split; [reflexivity|]); split; (discriminate || reflexivity).
Qed.

Lemma read_int_str_int (n : Z) (rest : string) :
  starts_digit rest = false -> Json.continues_number rest = false ->
  Json.read_int (str_int n ++ rest) = Some (n, rest).
Proof.
  intros Hd Hc. unfold str_int.
  assert (Hpos : forall u, u <> Decimal.Nil -> Json.int_literal u = true ->
            Json.read_int (NilEmpty.string_of_uint u ++ rest)
            = Some (Z.of_uint u, rest)).
  { intros u Hu Hlit.
    destruct (string_of_uint_start u rest Hu) as (c & tail & E & _ & Hm).
    unfold Json.read_int. rewrite E, Hm, <- E.
    rewrite (read_digits_string_of_uint u rest Hd), Hlit, Hc. reflexivity. }
  assert (Hneg : forall u, Json.int_literal u = true ->
            Json.read_int (String "-" (NilEmpty.string_of_uint u ++ rest))
            = Some (- Z.of_uint u, rest)).
  { intros u Hlit. unfold Json.read_int. cbn [Ascii.eqb Bool.eqb andb].
    rewrite (read_digits_string_of_uint u rest Hd), Hlit, Hc. reflexivity. }
  destruct n as [|p|p]; cbn [Z.to_int NilZero.string_of_int].
  - exact (Hpos (Decimal.D0 Decimal.Nil) ltac:(discriminate) eq_refl).
  - pose proof (Unsigned.to_uint_nonnil p) as Hnil.
    pose proof (DecimalZ.of_to (Z.pos p)) as Hz. cbn in Hz.
    replace (NilZero.string_of_uint (Pos.to_uint p))
      with (NilEmpty.string_of_uint (Pos.to_uint p))
      by (destruct (Pos.to_uint p); [now elim Hnil | reflexivity ..]).
    rewrite (Hpos _ Hnil (int_literal_to_uint p)). now rewrite Hz.
  - pose proof (Unsigned.to_uint_nonnil p) as Hnil.
    pose proof (DecimalZ.of_to (Z.neg p)) as Hz. cbn in Hz.
    replace (NilZero.string_of_uint (Pos.to_uint p))
      with (NilEmpty.string_of_uint (Pos.to_uint p))
      by (destruct (Pos.to_uint p); [now elim Hnil | reflexivity ..]).
    cbn [append]. rewrite (Hneg _ (int_literal_to_uint p)). now rewrite Hz.
Qed.

Lemma str_int_start (n : Z) (rest : string) :
  exists c tail, str_int n ++ rest = String c tail /\ number_start c = true.
Proof.
  unfold str_int. destruct n as [|p|p]; cbn [Z.to_int NilZero.string_of_int].
  - eexists; eexists; split; reflexivity.
  - pose proof (Unsigned.to_uint_nonnil p) as Hnil.
    destruct (Pos.to_uint p); [now elim Hnil | ..];
      eexists; eexists; split; reflexivity.
  - eexists; eexists; split; reflexivity.
Qed.

(** A character that starts a number starts nothing else. *)
Lemma number_start_dispatch (c : ascii) (tail : string) :
  number_start c = true ->
  Json.is_ws c = false /\ Ascii.eqb c Json.dquote = false /\
  Ascii.eqb c "[" = false /\ Ascii.eqb c "{" = false /\
  Ascii.eqb c "]" = false /\ Ascii.eqb c "}" = false /\
  Json.read_literal (String c tail) = None.
Proof.
  destruct c as [[] [] [] [] [] [] [] []]; cbn; intros H;
    try discriminate H; repeat split.
Qed.

(** *** Values *)

Lemma delimited_no_digit (rest : string) :
  delimited rest = true ->
  starts_digit rest = false /\ Json.continues_number rest = false.
Proof.
  destruct rest as [|c rest]; [now split|].
  destruct c as [[] [] [] [] [] [] [] []]; cbn; intros H;
    try discriminate H; now split.
Qed.

Lemma skip_ws_idem (s : string) : Json.skip_ws (Json.skip_ws s) = Json.skip_ws s.
Proof.
  induction s as [|c s IH]; [reflexivity|].
  cbn. destruct (Json.is_ws c) eqn:E; [exact IH|].
  cbn. now rewrite E.
Qed.

Lemma parse_value_skip_ws (fuel : nat) (s : string) :
  Json.parse_value fuel (Json.skip_ws s) = Json.parse_value fuel s.
Proof.
  destruct fuel; [reflexivity|]. cbn [Json.parse_value].
  now rewrite skip_ws_idem.
Qed.

Lemma parse_members_skip_ws (fuel : nat) (s : string) :
  Json.parse_members fuel (Json.skip_ws s) = Json.parse_members fuel s.
Proof.
  destruct fuel; [reflexivity|]. cbn [Json.parse_members].
  now rewrite skip_ws_idem.
Qed.

(** The text of a value starts with a character that is neither
    whitespace nor a closing bracket. *)
Lemma encode_start (level : nat) (j : json) (rest : string) :
  exists c tail, Json.encode level j ++ rest = String c tail /\
                 Json.is_ws c = false /\
                 Ascii.eqb c "]" = false /\ Ascii.eqb c "}" = false.
Proof.
  destruct j as [|[]|n|s|[|x xs]|[|kv kvs]];
    try (eexists; eexists; split; [reflexivity | repeat split]).
  destruct (str_int_start n rest) as (c & tail & E & Hc).
  destruct (number_start_dispatch c tail Hc) as (H1 & _ & _ & _ & H2 & H3 & _).
  exists c, tail. cbn [Json.encode]. repeat split; assumption.
Qed.

Lemma skip_ws_encode (level : nat) (j : json) (rest : string) :
  Json.skip_ws (Json.encode level j ++ rest) = Json.encode level j ++ rest.
Proof.
  destruct (encode_start level j rest) as (c & tail & E & Hc & _).
  rewrite E. cbn. now rewrite Hc.
Qed.

Lemma reads_back_null : reads_back JNull.
Proof.
  intros level rest [|fuel] _ Hf _; [cbn in Hf; lia | reflexivity].
Qed.

Lemma reads_back_bool (b : bool) : reads_back (JBool b).
Proof.
  intros level rest [|fuel] _ Hf _; [cbn in Hf; lia|].
  destruct b; reflexivity.
Qed.

Lemma reads_back_str (s : string) : reads_back (JStr s).
Proof.
  intros level rest [|fuel] _ Hf _; [cbn in Hf; lia|].
  destruct (read_string_encode_str s rest) as (tail & E & Hr).
  cbn [Json.encode Json.parse_value]. rewrite E. cbn [Json.skip_ws].
  change (Json.is_ws Json.dquote) with false. cbn iota.
  now rewrite Ascii.eqb_refl, Hr.
Qed.

Lemma reads_back_num (n : Z) : reads_back (JNum n).
Proof.
  intros level rest [|fuel] _ Hf Hrest; [cbn in Hf; lia|].
  destruct (delimited_no_digit rest Hrest) as [Hd Hc].
  destruct (str_int_start n rest) as (c & tail & E & Hs).
  destruct (number_start_dispatch c tail Hs) as (H1 & H2 & H3 & H4 & _ & _ & H5).
  cbn [Json.encode Json.parse_value]. rewrite E. cbn [Json.skip_ws].
  rewrite H1, H2, H3, H4, H5, <- E, (read_int_str_int n rest Hd Hc).
  reflexivity.
Qed.

Lemma array_tail_delimited (level : nat) (xs : list json) (rest : string) :
  delimited (array_tail level xs rest) = true.
Proof.
  destruct xs; reflexivity.
Qed.

Lemma parse_elements_items (level : nat) (rest : string) (xs : list json) :
  Forall reads_back xs ->
  forall x fuel,
    reads_back x -> wf_json x = true -> forallb wf_json xs = true ->
    (S (size x) + list_sum (map (fun y => S (size y)) xs) <= fuel)%nat ->
    Json.parse_elements fuel
      (Json.newline_indent (S level) ++ Json.encode (S level) x
       ++ array_tail level xs rest)
    = Some (x :: xs, rest).
Proof.
  induction 1 as [|y ys Hy _ IH]; intros x [|fuel] Hx Hwx Hwxs Hf;
    try (cbn in Hf; lia).
  - cbn [Json.parse_elements].
    rewrite <- (parse_value_skip_ws fuel), skip_ws_newline_indent,
      parse_value_skip_ws.
    rewrite (Hx (S level) _ fuel Hwx ltac:(cbn in Hf; lia)
               (array_tail_delimited level [] rest)).
    unfold array_tail. cbn [Json.join_items append].
    rewrite skip_ws_newline_indent. reflexivity.
  - cbn [Json.parse_elements].
    rewrite <- (parse_value_skip_ws fuel), skip_ws_newline_indent,
      parse_value_skip_ws.
    change (list_sum (map (fun y => S (size y)) (y :: ys)))
      with (S (size y) + list_sum (map (fun y => S (size y)) ys))%nat in Hf.
    cbn [forallb] in Hwxs.
    apply andb_prop in Hwxs as [Hwy Hwys].
    rewrite (Hx (S level) _ fuel Hwx ltac:(lia)
               (array_tail_delimited level (y :: ys) rest)).
    unfold array_tail at 1. cbn [Json.join_items].
    rewrite !append_assoc. cbn [append Json.skip_ws].
    change (Json.is_ws ",") with false. cbn iota.
    change (Ascii.eqb "," ",") with true. cbn iota.
    pose proof (IH y fuel Hy Hwy Hwys ltac:(lia)) as E.
    unfold array_tail in E. cbn [append] in E. now rewrite E.
Qed.

Lemma reads_back_arr (l : list json) : Forall reads_back l -> reads_back (JArr l).
Proof.
  intros Hl level rest [|fuel] Hw Hf Hrest; [cbn in Hf; lia|].
  destruct l as [|x xs]; [reflexivity|].
  inversion Hl as [|? ? Hx Hxs]; subst.
  cbn [wf_json forallb] in Hw. apply andb_prop in Hw as [Hwx Hwxs].
  change (size (JArr (x :: xs)))
    with (S (S (size x) + list_sum (map (fun y => S (size y)) xs)))%nat in Hf.
  cbn [Json.encode]. rewrite !append_assoc.
  fold (array_tail level xs rest).
  cbn [append Json.parse_value Json.skip_ws].
  change (Json.is_ws "[") with false. cbn iota.
  change (Ascii.eqb "[" Json.dquote) with false.
  change (Ascii.eqb "[" "[") with true. cbn iota.
  rewrite skip_ws_newline_indent, skip_ws_encode.
  destruct (encode_start (S level) x (array_tail level xs rest))
    as (c & tail & E & _ & Hc & _).
  rewrite E, Hc, <- E.
  rewrite (parse_elements_items level rest xs Hxs x fuel Hx Hwx Hwxs ltac:(lia)).
  reflexivity.
Qed.

Lemma object_tail_delimited (level : nat) (kvs : dict) (rest : string) :
  delimited (object_tail level kvs rest) = true.
Proof.
  destruct kvs; reflexivity.
Qed.

Lemma parse_members_items (level : nat) (rest : string) (kvs : dict) :
  Forall (fun kv => reads_back (snd kv)) kvs ->
  forall k v fuel,
    reads_back v -> wf_json v = true ->
    forallb (fun kv => wf_json (snd kv)) kvs = true ->
    (S (size v) + list_sum (map (fun kv => S (size (snd kv))) kvs) <= fuel)%nat ->
    Json.parse_members fuel
      (Json.newline_indent (S level) ++ Json.encode_str k ++ ": "
       ++ Json.encode (S level) v ++ object_tail level kvs rest)
    = Some ((k, v) :: kvs, rest).
Proof.
  induction 1 as [|[k' v'] kvs Hv' _ IH]; intros k v [|fuel] Hv Hwv Hwkvs Hf;
    try (cbn in Hf; lia).
  - rewrite <- parse_members_skip_ws, skip_ws_newline_indent,
      parse_members_skip_ws.
    destruct (read_string_encode_str k
                (": " ++ Json.encode (S level) v ++ object_tail level [] rest))
      as (tail & E & Hr).
    cbn [Json.parse_members]. rewrite E. cbn [Json.skip_ws].
    change (Json.is_ws Json.dquote) with false. cbn iota.
    rewrite Ascii.eqb_refl, Hr. cbn [append Json.skip_ws].
    change (Json.is_ws ":") with false. cbn iota.
    change (Ascii.eqb ":" ":") with true. cbn iota.
    rewrite <- (parse_value_skip_ws fuel).
    change (Json.skip_ws (String " " ?s)) with (Json.skip_ws s).
    rewrite parse_value_skip_ws.
    rewrite (Hv (S level) _ fuel Hwv ltac:(cbn in Hf; lia)
               (object_tail_delimited level [] rest)).
    unfold object_tail. cbn [Json.join_items append].
    rewrite skip_ws_newline_indent. reflexivity.
  - rewrite <- parse_members_skip_ws, skip_ws_newline_indent,
      parse_members_skip_ws.
    destruct (read_string_encode_str k
                (": " ++ Json.encode (S level) v
                 ++ object_tail level ((k', v') :: kvs) rest))
      as (tail & E & Hr).
    cbn [Json.parse_members]. rewrite E. cbn [Json.skip_ws].
    change (Json.is_ws Json.dquote) with false. cbn iota.
    rewrite Ascii.eqb_refl, Hr. cbn [append Json.skip_ws].
    change (Json.is_ws ":") with false. cbn iota.
    change (Ascii.eqb ":" ":") with true. cbn iota.
    rewrite <- (parse_value_skip_ws fuel).
    change (Json.skip_ws (String " " ?s)) with (Json.skip_ws s).
    rewrite parse_value_skip_ws.
    change (list_sum (map (fun kv => S (size (snd kv))) ((k', v') :: kvs)))
      with (S (size v') + list_sum (map (fun kv => S (size (snd kv))) kvs))%nat
      in Hf.
    cbn [forallb snd] in Hwkvs. apply andb_prop in Hwkvs as [Hwv' Hwkvs].
    rewrite (Hv (S level) _ fuel Hwv ltac:(lia)
               (object_tail_delimited level ((k', v') :: kvs) rest)).
    unfold object_tail at 1. cbn [Json.join_items fst snd].
    rewrite !append_assoc. cbn [append Json.skip_ws].
    change (Json.is_ws ",") with false. cbn iota.
    change (Ascii.eqb "," ",") with true. cbn iota.
    pose proof (IH k' v' fuel Hv' Hwv' Hwkvs ltac:(lia)) as E'.
    unfold object_tail in E'. cbn [append] in E'. now rewrite E'.
Qed.

Lemma distinct_app_fresh (l1 l2 : list string) (k : string) :
  distinct (l1 ++ k :: l2) = true -> existsb (String.eqb k) l1 = false.
Proof.
  induction l1 as [|a l1 IH]; cbn; [reflexivity|].
  intros H. apply andb_prop in H as [Ha H].
  rewrite (IH H), orb_false_r.
  apply negb_true_iff in Ha. rewrite existsb_app in Ha.
  apply orb_false_elim in Ha as [_ Ha]. cbn in Ha.
  apply orb_false_elim in Ha as [Ha _].
  now rewrite String.eqb_sym.
Qed.

Lemma dict_set_fresh (d : dict) (k : string) (v : json) :
  existsb (String.eqb k) (keys d) = false ->
  dict_set d k v = (d ++ [(k, v)])%list.
Proof.
  induction d as [|[k0 v0] d IH]; cbn; [reflexivity|].
  intros H. apply orb_false_elim in H as [H1 H2].
  now rewrite H1, (IH H2).
Qed.

(** Assigning the items of a dict to the empty dict gives the dict. *)
Lemma dict_update_distinct (d acc : dict) :
  distinct (keys (acc ++ d)%list) = true -> dict_update acc d = (acc ++ d)%list.
Proof.
  revert acc. induction d as [|[k v] d IH]; intros acc H.
  - now rewrite List.app_nil_r.
  - unfold dict_update. cbn [fold_left fst snd].
    unfold keys in H. rewrite map_app in H. cbn [map fst] in H.
    rewrite (dict_set_fresh acc k v (distinct_app_fresh _ _ _ H)).
    change (dict_update (acc ++ [(k, v)])%list d = (acc ++ (k, v) :: d)%list).
    rewrite IH; rewrite <- List.app_assoc; [reflexivity|].
    unfold keys. now rewrite map_app.
Qed.

Lemma reads_back_obj (d : dict) :
  Forall (fun kv => reads_back (snd kv)) d -> reads_back (JObj d).
Proof.
  intros Hd level rest [|fuel] Hw Hf Hrest; [cbn in Hf; lia|].
  destruct d as [|[k v] kvs]; [reflexivity|].
  inversion Hd as [|? ? Hv Hkvs]; subst. cbn [snd] in Hv.
  cbn [wf_json] in Hw. apply andb_prop in Hw as [Hkeys Hw].
  cbn [forallb snd] in Hw. apply andb_prop in Hw as [Hwv Hwkvs].
  change (size (JObj ((k, v) :: kvs)))
    with (S (S (size v) + list_sum (map (fun kv => S (size (snd kv))) kvs)))%nat
    in Hf.
  cbn [Json.encode fst snd]. rewrite !append_assoc.
  fold (object_tail level kvs rest).
  cbn [append Json.parse_value Json.skip_ws].
  change (Json.is_ws "{") with false. cbn iota.
  change (Ascii.eqb "{" Json.dquote) with false.
  change (Ascii.eqb "{" "[") with false.
  change (Ascii.eqb "{" "{") with true. cbn iota.
  rewrite skip_ws_newline_indent.
  destruct (read_string_encode_str k
              (String ":" (String " " (Json.encode (S level) v
                                       ++ object_tail level kvs rest))))
    as (tail & E & _).
  rewrite E. cbn [Json.skip_ws].
  change (Json.is_ws Json.dquote) with false. cbn iota.
  change (Ascii.eqb Json.dquote "}") with false. cbn iota.
  rewrite <- E.
  pose proof (parse_members_items level rest kvs Hkvs k v fuel Hv Hwv Hwkvs
                ltac:(lia)) as Hm.
  cbn [append] in Hm. rewrite Hm.
  rewrite (dict_update_distinct ((k, v) :: kvs) [] Hkeys). reflexivity.
Qed.

Theorem parse_value_encode (j : json) : reads_back j.
Proof.
  induction j using json_ind.
  - apply reads_back_null.
  - apply reads_back_bool.
  - apply reads_back_num.
  - apply reads_back_str.
  - now apply reads_back_arr.
  - now apply reads_back_obj.
Qed.

(** The text of a value is at least as long as the fuel its reading
    takes. *)
Lemma join_items_length {A : Type} (enc : A -> string) (sep : string)
  (sz : A -> nat) (l : list A) :
  (1 <= String.length sep)%nat ->
  Forall (fun x => (sz x <= String.length (enc x))%nat) l ->
  (list_sum (map (fun x => S (sz x)) l)
   <= String.length (Json.join_items enc sep l))%nat.
Proof.
  intros Hsep. induction 1 as [|x l Hx _ IH]; cbn [map Json.join_items].
  - cbn. lia.
  - change (list_sum (S (sz x) :: map (fun x => S (sz x)) l))
      with (S (sz x) + list_sum (map (fun x => S (sz x)) l))%nat.
    rewrite !length_append. lia.
Qed.

Lemma str_int_length (n : Z) : (1 <= String.length (str_int n))%nat.
Proof.
  destruct (str_int_start n "") as (c & tail & E & _).
  rewrite append_nil_r in E. rewrite E. cbn. lia.
Qed.

Lemma size_le_length (j : json) :
  forall level, (size j <= String.length (Json.encode level j))%nat.
Proof.
  induction j as [|b|n|s|l IH|d IH] using json_ind; intros level.
  - cbn. lia.
  - destruct b; cbn; lia.
  - apply str_int_length.
  - cbn. lia.
  - destruct l as [|x xs]; [cbn; lia|].
    inversion IH as [|? ? Hx Hxs]; subst.
    change (size (JArr (x :: xs)))
      with (S (S (size x) + list_sum (map (fun y => S (size y)) xs)))%nat.
    cbn [Json.encode]. rewrite !length_append.
    pose proof (Hx (S level)).
    pose proof (join_items_length (Json.encode (S level))
                  ("," ++ Json.newline_indent (S level)) size xs
                  ltac:(cbn; lia)
                  (Forall_impl _ (fun y Hy => Hy (S level)) Hxs)).
    cbn [String.length]. lia.
  - destruct d as [|[k v] kvs]; [cbn; lia|].
    inversion IH as [|? ? Hv Hkvs]; subst. cbn [snd] in Hv.
    change (size (JObj ((k, v) :: kvs)))
      with (S (S (size v) + list_sum (map (fun kv => S (size (snd kv))) kvs)))%nat.
    cbn [Json.encode fst snd]. rewrite !length_append.
    pose proof (Hv (S level)).
    assert (Hm : Forall
                   (fun kv => (size (snd kv)
                               <= String.length
                                    (Json.encode_str (fst kv) ++ ": "
                                     ++ Json.encode (S level) (snd kv)))%nat)
                   kvs).
    { eapply Forall_impl; [|exact Hkvs]. intros kv Hkv. cbn beta.
      rewrite !length_append. pose proof (Hkv (S level)). lia. }
    pose proof (join_items_length _ ("," ++ Json.newline_indent (S level))
                  (fun kv => size (snd kv)) kvs ltac:(cbn; lia) Hm).
    cbn [String.length]. lia.
Qed.

(** Reading back what [dumps] wrote gives the value. *)
Theorem loads_dumps (j : json) :
  wf_json j = true -> Json.loads (Json.dumps j) = Some j.
Proof.
  intros Hw. unfold Json.loads, Json.dumps.
  pose proof (parse_value_encode j 0%nat "" (S (String.length (Json.encode 0 j)))
                Hw ltac:(pose proof (size_le_length j 0%nat); lia) eq_refl) as H.
  rewrite append_nil_r in H. rewrite H. reflexivity.
Qed.

(** ** The pass-through of "call tool" *)

(** C7.  The call issues one request, whose body is the dict of [tool]
    and [args].  Whatever the status code of the response to it, the
    bridge client's [call_tool] returns the decoded body as it is, and
    the handler returns one item of type [text] whose text is the
    rendering of that body; against a bridge that echoes the request
    body, the text of the item reads back as the request body that was
    sent. *)
Theorem call_tool_pass_through (name : string) (arguments : json) (w : World)
  (Hwf : wf_json arguments = true) :
  exists r,
    sent (snd (BridgeClient.call_tool name arguments w)) = (sent w ++ [r])%list /\
    sent (snd (call_tool name arguments w)) = (sent w ++ [r])%list /\
    body r = Some (JObj [("tool", JStr name); ("args", arguments)]) /\
    (forall resp j,
       net w r = Responds resp -> decoded_body resp = IsJson j ->
       fst (BridgeClient.call_tool name arguments w) = Returns j /\
       exists item,
         fst (call_tool name arguments w) = Returns [item] /\
         type_ item = "text" /\ text_ item = Json.dumps j) /\
    (echoes (net w) ->
     exists item,
       fst (call_tool name arguments w) = Returns [item] /\
       type_ item = "text" /\ Json.loads (text_ item) = body r).
Proof.
  destruct (bridge_methods_on_handle w) as (c & w0 & _ & _ & _ & _ & Hcall).
  specialize (Hcall name arguments).
  set (r := request_on w c POST "/tool_call"
              (Some (JObj [("tool", JStr name); ("args", arguments)]))) in *.
  assert (Hh : call_tool name arguments w
               = (Returns [text_content
                             (call_tool_text (unchecked_json (net w r)))],
                  with_sent (sent w ++ [r]) w0)).
  { unfold call_tool, try_except, bind. rewrite Hcall.
    destruct (unchecked_json (net w r)) as [j|e]; [reflexivity|].
    destruct e; reflexivity. }
  exists r. rewrite Hcall, Hh. cbn [fst snd sent with_sent].
  refine (conj eq_refl (conj eq_refl (conj eq_refl (conj _ _)))).
  - intros resp j Hr Hj. rewrite Hr. cbn [unchecked_json]. unfold json_.
    rewrite Hj. split; [reflexivity|].
    eexists. split; [reflexivity|]. split; reflexivity.
  - intros Hecho. destruct (Hecho r _ eq_refl) as (resp & Hr & Hj).
    rewrite Hr. cbn [unchecked_json]. rewrite Hj.
    eexists. split; [reflexivity|]. split; [reflexivity|].
    cbn [text_ text_content call_tool_text].
    apply loads_dumps. cbn [wf_json forallb snd]. rewrite Hwf. reflexivity.
Qed.

Lemma call_tool_pass_through_witness :
  let w := world_at (echo 500) (ToolCache.__init__ 300) 1800000000 in
  let request_body := JObj [("tool", JStr "x"); ("args", JObj [("a", JNum 1)])] in
  wf_json (JObj [("a", JNum 1)]) = true /\
  exists r item,
    body r = Some request_body /\
    net w r = Responds {| status_code := 500; text := Json.dumps request_body;
                          decoded_body := IsJson request_body |} /\
    fst (BridgeClient.call_tool "x" (JObj [("a", JNum 1)]) w)
    = Returns request_body /\
    fst (call_tool "x" (JObj [("a", JNum 1)]) w) = Returns [item] /\
    type_ item = "text" /\ text_ item = Json.dumps request_body /\
    Json.loads (text_ item) = Some request_body.
Proof.
  cbn zeta. split; [reflexivity|].
  destruct (call_tool_pass_through "x" (JObj [("a", JNum 1)])
              (world_at (echo 500) (ToolCache.__init__ 300) 1800000000) eq_refl)
    as (r & _ & _ & Hb & Hany & Hecho).
  assert (Hr : net (world_at (echo 500) (ToolCache.__init__ 300) 1800000000) r
               = Responds {| status_code := 500;
                             text := Json.dumps
                                       (JObj [("tool", JStr "x");
                                              ("args", JObj [("a", JNum 1)])]);
                             decoded_body :=
                               IsJson (JObj [("tool", JStr "x");
                                             ("args", JObj [("a", JNum 1)])]) |})
    by (unfold world_at, net, echo; rewrite Hb; reflexivity).
  destruct (Hany _ _ Hr eq_refl) as (Hj & item & Hi & Hty & Htx).
  assert (He : echoes (net (world_at (echo 500) (ToolCache.__init__ 300)
                              1800000000))).
  { intros r' b' Hb'. unfold world_at, net, echo. rewrite Hb'.
    eexists. split; reflexivity. }
  destruct (Hecho He) as (item' & Hi' & _ & Hl).
  rewrite Hi in Hi'. injection Hi' as <-.
  exists r, item. rewrite Hb in Hl.
  exact (conj Hb (conj Hr (conj Hj (conj Hi (conj Hty (conj Htx Hl)))))).
Defined.

(* ================================================================== *)
(** * Further properties *)
(* ================================================================== *)

(** ** Bridge client: the connection handle *)

Lemma last_request (l : list Request) (r r' : Request) :
  (l ++ [r])%list = (l ++ [r'])%list -> r = r'.
Proof.
  intros H. apply app_inv_head in H. now injection H.
Qed.



(** X2.  The handle is created once and reused.  When the client holds
    an open handle, [_get_client] returns that very handle and changes
    nothing, each of the three methods sends its request on it (with the
    headers the handle was created with) and leaves it in the client.
    When the client holds no handle, or a closed one, [_get_client]
    builds a new handle from the token and the timeout and stores it, and
    asking again returns the stored handle and changes nothing. *)
Theorem get_client_reuses_handle (w : World) :
  (forall c0, _client (bridge w) = Some c0 -> is_closed c0 = false ->
     BridgeClient._get_client w = (Returns c0, w) /\
     (forall r, sent (snd (BridgeClient.health w)) = (sent w ++ [r])%list ->
                req_headers r = headers c0) /\
     (forall r, sent (snd (BridgeClient.list_tools w)) = (sent w ++ [r])%list ->
                req_headers r = headers c0) /\
     (forall tool args r,
        sent (snd (BridgeClient.call_tool tool args w)) = (sent w ++ [r])%list ->
        req_headers r = headers c0) /\
     _client (bridge (snd (BridgeClient.health w))) = Some c0 /\
     _client (bridge (snd (BridgeClient.list_tools w))) = Some c0 /\
     (forall tool args,
        _client (bridge (snd (BridgeClient.call_tool tool args w))) = Some c0)) /\
  (no_open_handle (bridge w) ->
   exists w1,
     BridgeClient._get_client w
     = (Returns (BridgeClient.new_client (bridge w)), w1) /\
     _client (bridge w1) = Some (BridgeClient.new_client (bridge w)) /\
     is_closed (BridgeClient.new_client (bridge w)) = false /\
     BridgeClient._get_client w1
     = (Returns (BridgeClient.new_client (bridge w)), w1)).
Proof.
  destruct (get_client_cases w) as [Hnew Hold]. split.
  - intros c0 H0 Hopen.
    destruct (bridge_methods_on_handle w) as (c & w0 & Hc & _ & Hh & Hl & Ht).
    rewrite (Hold c0 H0 Hopen) in Hc. injection Hc as <- <-.
    refine (conj (Hold c0 H0 Hopen) _).
    rewrite Hh, Hl. cbn [snd sent bridge with_sent].
    repeat split; try exact H0.
    + intros r Hr. apply last_request in Hr. now subst r.
    + intros r Hr. apply last_request in Hr. now subst r.
    + intros tool args r Hr. rewrite Ht in Hr. cbn [snd sent with_sent] in Hr.
      apply last_request in Hr. now subst r.
    + intros tool args. rewrite Ht. exact H0.
  - intros Hn. eexists. split; [exact (Hnew Hn)|].
    cbn [bridge with_bridge _client BridgeClient.set_client].
    refine (conj eq_refl (conj eq_refl _)).
    destruct (get_client_cases
                (with_bridge (BridgeClient.set_client
                                (BridgeClient.new_client (bridge w)) (bridge w)) w))
      as [_ Hold'].
    exact (Hold' _ eq_refl eq_refl).
Qed.

Lemma get_client_reuses_handle_witness :
  let c0 := {| headers := [("Content-Type", "application/json");
                           ("Authorization", "Bearer first")];
               client_timeout := 30; is_closed := false |} in
  let w := with_bridge {| base_url := "http://localhost:9333";
                          token := "second"; timeout := 30;
                          _client := Some c0 |}
             (world_at unreachable (ToolCache.__init__ 300) 1800000000) in
  BridgeClient._get_client w = (Returns c0, w) /\
  exists r, sent (snd (BridgeClient.list_tools w)) = [r] /\
            req_headers r = [("Content-Type", "application/json");
                             ("Authorization", "Bearer first")].
Proof.
  cbn zeta.
  destruct (get_client_reuses_handle
              (with_bridge {| base_url := "http://localhost:9333";
                              token := "second"; timeout := 30;
                              _client :=
                                Some {| headers :=
                                          [("Content-Type", "application/json");
                                           ("Authorization", "Bearer first")];
                                        client_timeout := 30;
                                        is_closed := false |} |}
                 (world_at unreachable (ToolCache.__init__ 300) 1800000000)))
    as [H _].
  destruct (H _ eq_refl eq_refl) as (Hg & _ & Hl & _).
  split; [exact Hg|].
  eexists. split; [reflexivity|]. apply Hl. reflexivity.
Defined.

(** X3.  [close] closes an open handle and does nothing else: it issues
    no request and leaves the cache alone; closing again changes nothing;
    and the next [_get_client] builds a new handle from the token and the
    timeout. *)
Theorem close_then_reopen (w : World) :
  let w1 := snd (BridgeClient.close w) in
  fst (BridgeClient.close w) = Returns tt /\
  no_open_handle (bridge w1) /\
  sent w1 = sent w /\ cache w1 = cache w /\
  BridgeClient.close w1 = (Returns tt, w1) /\
  fst (BridgeClient._get_client w1)
  = Returns (BridgeClient.new_client (bridge w)).
Proof.
  cbn zeta.
  assert (H : fst (BridgeClient.close w) = Returns tt /\
              no_open_handle (bridge (snd (BridgeClient.close w))) /\
              sent (snd (BridgeClient.close w)) = sent w /\
              cache (snd (BridgeClient.close w)) = cache w /\
              token (bridge (snd (BridgeClient.close w))) = token (bridge w) /\
              timeout (bridge (snd (BridgeClient.close w))) = timeout (bridge w)).
  { unfold BridgeClient.close, bind, gets, modify, ret, no_open_handle.
    destruct (_client (bridge w)) as [c|] eqn:E; cbn [fst snd].
    - destruct (is_closed c) eqn:Ec; cbn [fst snd].
      + rewrite E. repeat split. exact Ec.
      + repeat split.
    - rewrite E. repeat split. }
  destruct H as (Hr & Hn & Hs & Hc & Ht & Hm).
  refine (conj Hr (conj Hn (conj Hs (conj Hc _)))).
  set (w1 := snd (BridgeClient.close w)) in *. clearbody w1. split.
  - unfold BridgeClient.close, bind, gets, modify, ret.
    unfold no_open_handle in Hn.
    destruct (_client (bridge w1)) as [c|]; [now rewrite Hn | reflexivity].
  - destruct (get_client_cases w1) as [Hnew _].
    rewrite (Hnew Hn). cbn [fst].
    unfold BridgeClient.new_client. now rewrite Ht, Hm.
Qed.

(** ** Bridge client: outcomes of [health] and [list_tools] *)





(** ** Tool cache: time and sequences of operations *)

(** X6.  Staleness only grows with time: a cache that is expired at one
    reading of the clock is expired, and [get] returns [None], at every
    later reading, and a cache that is fresh at one reading returns its
    catalog at every earlier one. *)
Theorem cache_staleness_monotone (c : ToolCache) (t t' : Z) (Hle : t <= t') :
  (ToolCache.expired c t = true ->
   ToolCache.expired c t' = true /\ ToolCache.get c t' = JNull) /\
  (ToolCache.expired c t' = false -> ToolCache.get c t = _tools c).
Proof.
  split.
  - intros H. apply expired_spec in H.
    assert (H' : t' - _fetched_at c > ttl c) by lia.
    split; [now apply expired_spec | now apply get_stale].
  - intros H. apply get_fresh.
    destruct (Z_le_gt_dec (t - _fetched_at c) (ttl c)) as [Hf|Hs]; [exact Hf|].
    assert (H' : t' - _fetched_at c > ttl c) by lia.
    apply expired_spec in H'. congruence.
Qed.

Lemma cache_staleness_monotone_witness :
  1400 <= 9000 /\
  ToolCache.get (ToolCache.set (ToolCache.__init__ 300) (JArr [JStr "t"]) 1000) 9000
  = JNull.
Proof.
  split; [lia|].
  destruct (cache_staleness_monotone
              (ToolCache.set (ToolCache.__init__ 300) (JArr [JStr "t"]) 1000)
              1400 9000 ltac:(lia)) as [H _].
  exact (proj2 (H eq_refl)).
Defined.

(** X7.  The sign of the TTL decides whether the cache ever serves: with
    a negative TTL [get] returns [None] from the reading of the [set]
    onwards, with a TTL of zero or more it returns the catalog at the
    reading of the [set], and with a TTL of zero at no later reading. *)
Theorem cache_ttl_sign (c : ToolCache) (tools : json) (t0 : Z) :
  (ttl c < 0 -> forall t, t0 <= t ->
     ToolCache.get (ToolCache.set c tools t0) t = JNull) /\
  (0 <= ttl c -> ToolCache.get (ToolCache.set c tools t0) t0 = tools) /\
  (ttl c = 0 -> forall t, t0 < t ->
     ToolCache.get (ToolCache.set c tools t0) t = JNull).
Proof.
  repeat split.
  - intros H t Ht. apply get_stale. cbn. lia.
  - intros H. rewrite get_fresh; [reflexivity|]. cbn. lia.
  - intros H t Ht. apply get_stale. cbn. lia.
Qed.

Lemma cache_ttl_sign_witness :
  ToolCache.get (ToolCache.set (ToolCache.__init__ (-1)) (JArr [JStr "t"]) 1000) 1000
  = JNull.
Proof.
  destruct (cache_ttl_sign (ToolCache.__init__ (-1)) (JArr [JStr "t"]) 1000)
    as [H _].
  apply H; cbn; lia.
Defined.

(** X8.  Whatever sequence of [set] and [invalidate] a cache goes
    through, its TTL stays as constructed, it holds the catalog of the
    last [set] (nothing of earlier catalogs, and [invalidate] discards
    nothing), and its timestamp is the time of the last [set] unless an
    [invalidate] came after it, which leaves zero. *)
Theorem cache_after_ops (ops : list cache_op) (c : ToolCache) :
  ttl (run_cache_ops c ops) = ttl c /\
  _tools (run_cache_ops c ops) = last_set (_tools c) ops /\
  _fetched_at (run_cache_ops c ops) = last_stamp (_fetched_at c) ops.
Proof.
  revert c. induction ops as [|op ops IH]; intros c; [repeat split|].
  unfold run_cache_ops. cbn [fold_left].
  destruct (IH (apply_cache_op c op)) as (H1 & H2 & H3).
  unfold run_cache_ops in H1, H2, H3. rewrite H1, H2, H3.
  destruct op; repeat split.
Qed.

(** ** Translation: raw tools that cannot be translated *)

(** The constructor returns for a well-typed raw tool and raises
    otherwise: [KeyError] for a missing name, [ValidationError] for a
    field of another type. *)
Lemma to_mcp_tool_verdict (d : dict) :
  (well_typed_tool d = true -> exists x, to_mcp_tool (JObj d) = Returns x) /\
  (well_typed_tool d = false ->
   exists e, to_mcp_tool (JObj d) = Raises e /\
             (has_name d = false -> e = KeyError "name") /\
             (has_name d = true -> exists msg, e = ValidationError msg)).
Proof.
  rewrite to_mcp_tool_object.
  unfold well_typed_tool, typed_fields, has_name, dict_get_default, new_Tool,
    default_schema.
  destruct (dict_get d "name") as [n|].
  - destruct n;
      destruct (dict_get d "description") as [[| | | | |]|];
      destruct (dict_get d "inputSchema") as [[| | | | |]|];
      cbn [andb]; split; intros H; try discriminate H;
      try (eexists; reflexivity);
      (eexists; split; [reflexivity|]; split;
       [discriminate | intros _; eexists; reflexivity]).
  - split; [discriminate|]. intros _. eexists. split; [reflexivity|].
    split; [reflexivity | discriminate].
Qed.

Lemma to_mcp_tools_loop_objects (ds : list dict) (acc : list Tool) :
  (forallb well_typed_tool ds = true ->
   exists ts, to_mcp_tools_loop (map JObj ds) acc = Returns (acc ++ ts)%list /\
              List.length ts = List.length ds) /\
  (forallb well_typed_tool ds = false ->
   exists ds1 d ds2 e,
     ds = (ds1 ++ d :: ds2)%list /\
     forallb well_typed_tool ds1 = true /\ well_typed_tool d = false /\
     to_mcp_tools_loop (map JObj ds) acc = Raises e /\
     (has_name d = false -> e = KeyError "name") /\
     (has_name d = true -> exists msg, e = ValidationError msg)).
Proof.
  revert acc. induction ds as [|d ds IH]; intros acc.
  - split; [|discriminate]. intros _. exists []. cbn.
    now rewrite List.app_nil_r.
  - cbn [map to_mcp_tools_loop forallb].
    destruct (to_mcp_tool_verdict d) as [Hgood Hbad].
    destruct (well_typed_tool d) eqn:Ed; cbn [andb].
    + destruct (Hgood eq_refl) as [x Hx]. rewrite Hx.
      destruct (IH (acc ++ [x])%list) as [Hall Hsome]. split.
      * intros H. destruct (Hall H) as (ts & Hts & Hlen).
        exists (x :: ts). rewrite Hts, <- List.app_assoc.
        cbn. now rewrite Hlen.
      * intros H.
        destruct (Hsome H) as (ds1 & d' & ds2 & e & -> & H1 & H2 & H3 & H4).
        exists (d :: ds1), d', ds2, e. cbn [forallb]. rewrite Ed, H1.
        repeat split; try assumption; apply H4.
    + split; [discriminate|]. intros _.
      destruct (Hbad eq_refl) as (e & He & Hk & Hv). rewrite He.
      exists [], d, ds, e. repeat split; assumption.
Qed.

(** X9.  On a list of raw tool objects [_to_mcp_tools] returns exactly
    when every object is well typed (a string for its name, a string or
    [null] for a description that is present, an object for an input
    schema that is present), and then as many tools as there are objects.
    Otherwise the translation stops at the first object that is not, and
    no tool is returned: the exception is [KeyError('name')] when that
    object lacks the key [name] and the [ValidationError] of the
    constructor when it has the key. *)
Theorem to_mcp_tools_first_offender (ds : list dict) :
  (forallb well_typed_tool ds = true ->
   exists ts, _to_mcp_tools (JArr (map JObj ds)) = Returns ts /\
              List.length ts = List.length ds) /\
  (forallb well_typed_tool ds = false ->
   exists ds1 d ds2 e,
     ds = (ds1 ++ d :: ds2)%list /\
     forallb well_typed_tool ds1 = true /\ well_typed_tool d = false /\
     _to_mcp_tools (JArr (map JObj ds)) = Raises e /\
     (has_name d = false -> e = KeyError "name") /\
     (has_name d = true -> exists msg, e = ValidationError msg)).
Proof.
  unfold _to_mcp_tools. cbn [iterate].
  exact (to_mcp_tools_loop_objects ds []).
Qed.

Lemma to_mcp_tools_first_offender_witness :
  exists ds1 d ds2 e,
    [[("name", JStr "click")]; [("name", JNum 5)]; [("description", JStr "?")]]
    = (ds1 ++ d :: ds2)%list /\
    forallb well_typed_tool ds1 = true /\ well_typed_tool d = false /\
    _to_mcp_tools
      (JArr (map JObj [[("name", JStr "click")]; [("name", JNum 5)];
                       [("description", JStr "?")]]))
    = Raises e /\
    (has_name d = false -> e = KeyError "name") /\
    (has_name d = true -> exists msg, e = ValidationError msg).
Proof.
  destruct (to_mcp_tools_first_offender
              [[("name", JStr "click")]; [("name", JNum 5)];
               [("description", JStr "?")]])
    as [_ H].
  exact (H eq_refl).
Defined.

(** ** The handler of "list tools": successive calls *)

(** After a miss and a fetch of the catalog [l]: the result and the world. *)
Lemma list_tools_fetch (w : World) (l : list json) (w2 : World) :
  ToolCache.get (cache w) (now w) = JNull ->
  BridgeClient.list_tools (with_ticks (S (ticks w)) w) = (Returns (JArr l), w2) ->
  list_tools w
  = (_to_mcp_tools (JArr l),
     with_cache (ToolCache.set (cache w) (JArr l) (clock w (S (ticks w))))
       (with_ticks (S (S (ticks w))) w2)).
Proof.
  intros Hget Hb. rewrite (list_tools_miss w _ w2 Hget Hb).
  destruct (bridge_list_tools_frame _ _ _ Hb) as (Hc & Hk & Ht & _).
  cbn in Hc, Hk, Ht. cbn [len]. cbn zeta. unfold now. rewrite Hc, Hk, Ht.
  destruct (_to_mcp_tools (JArr l)) as [ts|e] eqn:Etr; [reflexivity|].
  now rewrite (to_mcp_tools_raises_truthy l e Etr).
Qed.

(** A miss issues one request, to the tools path of the bridge. *)
Lemma list_tools_miss_request (w : World) :
  ToolCache.get (cache w) (now w) = JNull ->
  exists r, sent (snd (list_tools w)) = (sent w ++ [r])%list /\
            method r = GET /\ url r = base_url (bridge w) ++ "/tools".
Proof.
  intros H.
  destruct (BridgeClient.list_tools (with_ticks (S (ticks w)) w))
    as [out w2] eqn:Hb.
  rewrite (list_tools_miss w out w2 H Hb).
  destruct (bridge_list_tools_frame _ _ _ Hb)
    as (_ & _ & _ & r & Hs & Hm & Hu & _).
  exists r. cbn in Hs, Hu. split; [|split; assumption].
  destruct out as [raw|e].
  - cbn zeta. destruct (len raw), (_to_mcp_tools raw), (truthy raw); exact Hs.
  - destruct (truthy (_tools (cache w2))); exact Hs.
Qed.

(** X10.  After a miss that fetched a catalog, a second call whose clock
    reading is within the TTL of the store gives the same outcome as the
    first (the same tools, or the same exception for a catalog that
    cannot be translated) and issues no request: the fetched catalog is
    served from the cache. *)
Theorem list_tools_second_call_hits (w : World) (l : list json) (w2 : World)
  (Hmiss : ToolCache.get (cache w) (now w) = JNull)
  (Hfetch : BridgeClient.list_tools (with_ticks (S (ticks w)) w)
            = (Returns (JArr l), w2))
  (Hfresh : clock w (S (S (ticks w))) - clock w (S (ticks w)) <= ttl (cache w)) :
  let w' := snd (list_tools w) in
  fst (list_tools w') = fst (list_tools w) /\
  sent (snd (list_tools w')) = sent w' /\
  cache (snd (list_tools w')) = cache w'.
Proof.
  cbn zeta. rewrite (list_tools_fetch w l w2 Hmiss Hfetch). cbn [fst snd].
  destruct (bridge_list_tools_frame _ _ _ Hfetch) as (_ & Hk & _).
  cbn in Hk.
  set (w3 := with_cache _ _).
  assert (Hget : ToolCache.get (cache w3) (now w3) = JArr l).
  { unfold w3, now. cbn [cache clock ticks with_cache with_ticks].
    rewrite Hk. rewrite get_fresh; [reflexivity|]. cbn. lia. }
  rewrite list_tools_hit; rewrite Hget; [|discriminate].
  repeat split.
Qed.

Lemma list_tools_second_call_hits_witness :
  let w := world_at (answers 200 (JObj [("tools", JArr [JObj [("name", JStr "click")]])]))
             (ToolCache.__init__ 300) 1800000000 in
  fst (list_tools (snd (list_tools w))) = fst (list_tools w) /\
  sent (snd (list_tools (snd (list_tools w)))) = sent (snd (list_tools w)).
Proof.
  cbn zeta.
  destruct (list_tools_second_call_hits
              (world_at (answers 200
                           (JObj [("tools", JArr [JObj [("name", JStr "click")]])]))
                 (ToolCache.__init__ 300) 1800000000)
              [JObj [("name", JStr "click")]] _ eq_refl eq_refl
              ltac:(cbn; lia))
    as (H1 & H2 & _).
  split; [exact H1 | exact H2].
Defined.

(** X11.  A failed fetch is not remembered: it leaves the cache as it
    was and issues one request, without a retry; and when the clock does
    not run backwards, the next call on the still expired cache asks the
    bridge again. *)
Theorem list_tools_failure_not_cached (w : World) (e : exn) (w2 : World)
  (Hexp : ToolCache.expired (cache w) (now w) = true)
  (Hfail : BridgeClient.list_tools (with_ticks (S (ticks w)) w) = (Raises e, w2))
  (Hclock : now w <= clock w (S (ticks w))) :
  let w' := snd (list_tools w) in
  cache w' = cache w /\
  (exists r, sent w' = (sent w ++ [r])%list) /\
  (exists r', sent (snd (list_tools w')) = (sent w' ++ [r'])%list /\
              method r' = GET /\ url r' = base_url (bridge w) ++ "/tools").
Proof.
  cbn zeta.
  assert (Hget : ToolCache.get (cache w) (now w) = JNull)
    by (unfold ToolCache.get; now rewrite Hexp).
  pose proof (list_tools_miss w _ _ Hget Hfail) as Hlt. cbn iota in Hlt.
  destruct (bridge_list_tools_spec (with_ticks (S (ticks w)) w))
    as (r & w0 & _ & _ & _ & (Hc & _ & _ & Hk & Ht & Hu & _) & E).
  rewrite E in Hfail. injection Hfail as _ Hw2.
  cbn in Hc, Hk, Ht, Hu.
  assert (Hw' : snd (list_tools w) = with_sent (sent w ++ [r]) w0).
  { rewrite Hlt, <- Hw2.
    now destruct (truthy (_tools (cache (with_sent (sent w ++ [r]) w0)))). }
  rewrite Hw'. cbn [cache sent with_sent].
  refine (conj Hc (conj (ex_intro _ r eq_refl) _)).
  assert (Hget' : ToolCache.get (cache (with_sent (sent w ++ [r]) w0))
                    (now (with_sent (sent w ++ [r]) w0)) = JNull).
  { unfold now. cbn [cache clock ticks with_sent]. rewrite Hc, Hk, Ht.
    apply get_stale. apply expired_spec in Hexp. unfold now in Hclock, Hexp.
    lia. }
  destruct (list_tools_miss_request _ Hget') as (r' & Hs' & Hm' & Hu').
  exists r'. cbn [sent bridge with_sent] in Hs', Hu'.
  rewrite Hu in Hu'. repeat split; assumption.
Qed.

Lemma list_tools_failure_not_cached_witness :
  let w := world_at unreachable (ToolCache.__init__ 300) 1800000000 in
  exists r', sent (snd (list_tools (snd (list_tools w))))
             = (sent (snd (list_tools w)) ++ [r'])%list /\
             method r' = GET /\
             url r' = base_url (bridge w) ++ "/tools".
Proof.
  cbn zeta.
  destruct (list_tools_failure_not_cached
              (world_at unreachable (ToolCache.__init__ 300) 1800000000)
              (TransportError "All connection attempts failed") _
              eq_refl eq_refl ltac:(cbn; lia))
    as (_ & _ & H).
  exact H.
Defined.

(** X12.  When the value of [tools] in the bridge's answer is not a
    container ([null], a boolean or a number), it is stored in the cache
    all the same; the handler returns the empty list for a value that
    counts as false and raises the [TypeError] of the iteration for one
    that counts as true.  After [null] the cache returns [None] at every
    reading of the clock, so every later call asks the bridge again. *)
Theorem list_tools_non_container (w : World) (raw : json) (e0 : exn) (w2 : World)
  (Hmiss : ToolCache.get (cache w) (now w) = JNull)
  (Hfetch : BridgeClient.list_tools (with_ticks (S (ticks w)) w)
            = (Returns raw, w2))
  (Hraw : iterate raw = Raises e0) :
  let w' := snd (list_tools w) in
  fst (list_tools w) = (if truthy raw then Raises e0 else Returns []) /\
  _tools (cache w') = raw /\
  (raw = JNull -> forall t, ToolCache.get (cache w') t = JNull).
Proof.
  cbn zeta. rewrite (list_tools_miss w _ w2 Hmiss Hfetch). cbn zeta.
  assert (Hlen : exists e1, len raw = Raises e1)
    by (destruct raw; try discriminate Hraw; eexists; reflexivity).
  destruct Hlen as [e1 Hlen]. rewrite Hlen.
  unfold _to_mcp_tools. rewrite Hraw.
  destruct (truthy raw); cbn [fst snd cache with_cache _tools ToolCache.set];
    (split; [reflexivity|]); (split; [reflexivity|]);
    intros -> t; unfold ToolCache.get; cbn [_tools];
    now destruct (ToolCache.expired _ t).
Qed.

Lemma list_tools_non_container_witness :
  let w := world_at (answers 200 (JObj [("tools", JNull)]))
             (ToolCache.__init__ 300) 1800000000 in
  fst (list_tools w) = Returns [] /\
  ToolCache.get (cache (snd (list_tools w))) 1800000001 = JNull.
Proof.
  cbn zeta.
  destruct (list_tools_non_container
              (world_at (answers 200 (JObj [("tools", JNull)]))
                 (ToolCache.__init__ 300) 1800000000)
              JNull (TypeError "object is not iterable") _
              eq_refl eq_refl eq_refl)
    as (H1 & _ & H3).
  split; [exact H1 | exact (H3 eq_refl 1800000001)].
Defined.

(** X13.  Whenever the cache holds, after a call, a catalog that counts
    as true (a non-empty list in particular), the outcome of the call is
    the translation of exactly that catalog: the handler never answers
    with tools other than those of the catalog it leaves in the cache. *)
Theorem list_tools_answers_from_cache (w : World)
  (Hheld : truthy (_tools (cache (snd (list_tools w)))) = true) :
  fst (list_tools w) = _to_mcp_tools (_tools (cache (snd (list_tools w)))).
Proof.
  destruct (ToolCache.get (cache w) (now w)) eqn:Hget.
  1: { destruct (BridgeClient.list_tools (with_ticks (S (ticks w)) w))
         as [out w2] eqn:Hb.
       rewrite (list_tools_miss w out w2 Hget Hb) in *.
       destruct out as [raw|e].
       - cbn zeta in *.
         destruct (len raw); destruct (_to_mcp_tools raw) eqn:Etr;
           destruct (truthy raw) eqn:Htr;
           cbn [fst snd cache with_cache _tools ToolCache.set] in *;
           congruence.
       - destruct (truthy (_tools (cache w2))) eqn:Htr;
           cbn [fst snd] in *; congruence. }
  all: assert (Hex : ToolCache.expired (cache w) (now w) = false)
      by (unfold ToolCache.get in Hget;
          destruct (ToolCache.expired (cache w) (now w));
          [discriminate | reflexivity]);
    unfold ToolCache.get in Hget; rewrite Hex in Hget;
    rewrite list_tools_hit;
    [cbn [fst snd cache with_ticks]; unfold ToolCache.get; rewrite Hex;
     reflexivity
    | unfold ToolCache.get; rewrite Hex, Hget; discriminate].
Qed.

Lemma list_tools_answers_from_cache_witness :
  let w := world_at unreachable
             (ToolCache.set (ToolCache.__init__ 300)
                (JArr [JObj [("name", JStr "click")]]) 1000) 5000 in
  fst (list_tools w)
  = _to_mcp_tools (JArr [JObj [("name", JStr "click")]]).
Proof.
  exact (list_tools_answers_from_cache
           (world_at unreachable
              (ToolCache.set (ToolCache.__init__ 300)
                 (JArr [JObj [("name", JStr "click")]]) 1000) 5000)
           eq_refl).
Defined.

(** ** The handler of "call tool": what it leaves alone *)

(** X14.  The handler forwards every call: whatever the tool name and
    the arguments, and whatever the cache holds, it issues exactly one
    POST request whose body is the dict of [tool] and [args] with the
    arguments unchanged; it does not read the clock and does not touch
    the cache. *)
Theorem call_tool_forwards_unchecked (name : string) (arguments : json)
  (w : World) :
  let w' := snd (call_tool name arguments w) in
  cache w' = cache w /\ ticks w' = ticks w /\
  exists r, sent w' = (sent w ++ [r])%list /\ method r = POST /\
            url r = base_url (bridge w) ++ "/tool_call" /\
            body r = Some (JObj [("tool", JStr name); ("args", arguments)]).
Proof.
  cbn zeta.
  destruct (call_tool_spec name arguments w)
    as (r & w0 & Hm & Hu & Hb & (Hc & _ & _ & _ & Ht & _) & E).
  rewrite E. cbn [snd cache ticks sent with_sent].
  refine (conj Hc (conj Ht _)). exists r. repeat split; assumption.
Qed.

(** The first character of a rendered value. *)
Lemma encode_first_char (level : nat) (j : json) :
  exists c tail, Json.encode level j = String c tail /\ c <> "B"%char.
Proof.
  destruct j as [|[]|n|s|[|x xs]|[|kv kvs]];
    try (eexists; eexists; split; [reflexivity | discriminate]).
  destruct (str_int_start n "") as (c & tail & E & Hc).
  rewrite append_nil_r in E. exists c, tail. split; [exact E|].
  intros ->. discriminate Hc.
Qed.

(** X15.  The text that the handler returns never starts with
    [Bridge error: ]: the branch of the handler that writes the status
    code of the bridge is never taken, whatever the bridge answers. *)
Theorem call_tool_never_bridge_error (name : string) (arguments : json)
  (w : World) :
  exists s, fst (call_tool name arguments w) = Returns [text_content s] /\
            String.prefix "Bridge error: " s = false.
Proof.
  destruct (call_tool_spec name arguments w) as (r & w0 & _ & _ & _ & _ & E).
  rewrite E. eexists. split; [reflexivity|].
  unfold unchecked_json, json_.
  destruct (net w r) as [resp|msg]; [|reflexivity].
  destruct (decoded_body resp) as [j|msg]; [|reflexivity].
  cbn [call_tool_text]. unfold Json.dumps.
  destruct (encode_first_char 0 j) as (c & tail & Ej & Hc).
  rewrite Ej. cbn [String.prefix].
  destruct (ascii_dec "B" c) as [<-|_]; [now elim Hc | reflexivity].
Qed.

(** X16.  The rendering of a result loses nothing: two results of the
    bridge that the handler renders to the same text are the same
    value. *)
Theorem call_tool_text_injective (j1 j2 : json)
  (Hwf1 : wf_json j1 = true) (Hwf2 : wf_json j2 = true)
  (Htext : call_tool_text (Returns j1) = call_tool_text (Returns j2)) :
  j1 = j2.
Proof.
  cbn [call_tool_text] in Htext.
  pose proof (loads_dumps j1 Hwf1) as H1.
  pose proof (loads_dumps j2 Hwf2) as H2.
  rewrite Htext, H2 in H1. now injection H1.
Qed.

Lemma call_tool_text_injective_witness :
  JObj [("ok", JBool true)] = JObj [("ok", JBool true)].
Proof.
  exact (call_tool_text_injective
           (JObj [("ok", JBool true)]) (JObj [("ok", JBool true)])
           eq_refl eq_refl eq_refl).
Defined.

(** ** Configuration: the other keys *)

(** X17.  The environment reaches three keys only.  Every other key of
    the configuration, a key of the file that the module does not know
    included, has the value of the file when the file binds it and the
    built-in default, if there is one, otherwise; no environment variable
    changes it. *)
Theorem load_config_other_keys (file : config_file) (env : environ)
  (key : string) (Hfile : is_dict file)
  (Hurl : key <> "bridge_url") (Htoken : key <> "bridge_token")
  (Hlevel : key <> "log_level") :
  dict_get (_load_config file env) key
  = match file_value file key with
    | Some v => Some v
    | None => dict_get defaults key
    end.
Proof.
  unfold _load_config. rewrite !dict_get_env_override.
  apply String.eqb_neq in Hurl, Htoken, Hlevel.
  rewrite Hurl, Htoken, Hlevel.
  assert (H0 : dict_get match file with
                        | Loaded cfg => dict_update defaults cfg
                        | _ => defaults
                        end key
               = match file_value file key with
                 | Some v => Some v
                 | None => dict_get defaults key
                 end).
  { destruct file as [| |cfg]; try reflexivity.
    exact (dict_get_update cfg defaults key Hfile). }
  rewrite H0.
  destruct (env "BROWSERCLAW_LOG_LEVEL") as [g|];
    destruct (env "BROWSERCLAW_BRIDGE_TOKEN") as [t|];
    destruct (env "BROWSERCLAW_BRIDGE_URL") as [u|];
    try destruct (String.eqb g ""); try destruct (String.eqb t "");
    try destruct (String.eqb u ""); reflexivity.
Qed.

Lemma load_config_other_keys_witness :
  dict_get (_load_config (Loaded [("profile", JStr "work")]) (fun _ => Some "x"))
    "profile"
  = Some (JStr "work").
Proof.
  exact (load_config_other_keys (Loaded [("profile", JStr "work")])
           (fun _ => Some "x") "profile" eq_refl
           ltac:(discriminate) ltac:(discriminate) ltac:(discriminate)).
Defined.

(** ** From the configuration to the wire *)

Lemma load_config_env_url (file : config_file) (env : environ) (u : string) :
  env "BROWSERCLAW_BRIDGE_URL" = Some u -> u <> "" ->
  dict_get (_load_config file env) "bridge_url" = Some (JStr u).
Proof.
  intros Hu Hne. unfold _load_config. rewrite !dict_get_env_override.
  cbn [String.eqb Ascii.eqb Bool.eqb]. rewrite Hu.
  apply String.eqb_neq in Hne. rewrite Hne.
  destruct (env "BROWSERCLAW_LOG_LEVEL") as [g|];
    destruct (env "BROWSERCLAW_BRIDGE_TOKEN") as [t|];
    try destruct (String.eqb g ""); try destruct (String.eqb t "");
    reflexivity.
Qed.

Lemma load_config_env_token (file : config_file) (env : environ) (t : string) :
  env "BROWSERCLAW_BRIDGE_TOKEN" = Some t -> t <> "" ->
  dict_get (_load_config file env) "bridge_token" = Some (JStr t).
Proof.
  intros Ht Hne. unfold _load_config. rewrite !dict_get_env_override.
  cbn [String.eqb Ascii.eqb Bool.eqb]. rewrite Ht.
  apply String.eqb_neq in Hne. rewrite Hne.
  destruct (env "BROWSERCLAW_LOG_LEVEL") as [g|];
    try destruct (String.eqb g ""); reflexivity.
Qed.

(** X18.  A bridge URL given in the environment reaches the wire: when
    [BROWSERCLAW_BRIDGE_URL] is set to a non-empty [u], the configuration
    has [u] as its [bridge_url] whatever the file says, and a client
    constructed with it sends its tool listing to [u] without its
    trailing slashes, followed by [/tools]. *)
Theorem env_url_reaches_requests (file : config_file) (env : environ)
  (u : string) (Hu : env "BROWSERCLAW_BRIDGE_URL" = Some u) (Hne : u <> "") :
  dict_get (_load_config file env) "bridge_url" = Some (JStr u) /\
  forall token timeout w,
    bridge w = BridgeClient.__init__ u token timeout ->
    exists r, sent (snd (BridgeClient.list_tools w)) = (sent w ++ [r])%list /\
              url r = rstrip u "/" ++ "/tools" /\
              forall p, url r <> p ++ "//tools".
Proof.
  split; [now apply load_config_env_url|].
  intros token timeout w Hw.
  destruct (bridge_list_tools_spec w) as (r & w0 & _ & Hr & _ & _ & E).
  exists r. rewrite E, Hr, Hw. cbn [snd sent with_sent BridgeClient.__init__ base_url].
  refine (conj eq_refl (conj eq_refl _)).
  intros p H.
  assert (Hcut : forall a b : string, a ++ "/tools" = b ++ "/tools" -> a = b).
  { intros a. induction a as [|x a IH]; intros [|y b] Hab; cbn in Hab.
    - reflexivity.
    - exfalso. injection Hab as _ Hab.
      assert (Hl : String.length "tools" = String.length (b ++ "/tools"))
        by now rewrite <- Hab.
      rewrite length_append in Hl. cbn in Hl. lia.
    - exfalso. injection Hab as _ Hab.
      assert (Hl : String.length (a ++ "/tools") = String.length "tools")
        by now rewrite Hab.
      rewrite length_append in Hl. cbn in Hl. lia.
    - injection Hab as -> Hab. now rewrite (IH b Hab). }
  apply (rstrip_no_trailing_slash u p). apply Hcut.
  rewrite append_assoc. exact H.
Qed.

Lemma env_url_reaches_requests_witness :
  exists r,
    sent (snd (BridgeClient.list_tools
                 (with_bridge (BridgeClient.__init__ "http://bridge:9000/" "" 30)
                    (world_at unreachable (ToolCache.__init__ 300) 1800000000))))
    = [r] /\
    url r = "http://bridge:9000/tools".
Proof.
  destruct (env_url_reaches_requests example_file example_environ
              "http://bridge:9000/" eq_refl ltac:(discriminate))
    as [_ H].
  destruct (H "" 30
              (with_bridge (BridgeClient.__init__ "http://bridge:9000/" "" 30)
                 (world_at unreachable (ToolCache.__init__ 300) 1800000000))
              eq_refl) as (r & Hs & Hr & _).
  exists r. split; [exact Hs | exact Hr].
Defined.

(** X19.  A token given in the environment reaches the wire: when
    [BROWSERCLAW_BRIDGE_TOKEN] is set to a non-empty [t], the
    configuration has [t] as its [bridge_token] whatever the file says,
    and the first request of a client constructed with it carries
    [Authorization: Bearer t]. *)
Theorem env_token_reaches_requests (file : config_file) (env : environ)
  (t : string) (Ht : env "BROWSERCLAW_BRIDGE_TOKEN" = Some t) (Hne : t <> "") :
  dict_get (_load_config file env) "bridge_token" = Some (JStr t) /\
  forall base timeout w tool args,
    bridge w = BridgeClient.__init__ base t timeout ->
    exists r, sent (snd (BridgeClient.call_tool tool args w)) = (sent w ++ [r])%list /\
              In ("Authorization", "Bearer " ++ t) (req_headers r).
Proof.
  split; [now apply load_config_env_token|].
  intros base timeout w tool args Hw.
  destruct (bridge_methods_on_handle w) as (c & w0 & Hc & _ & _ & _ & Hcall).
  destruct (get_client_cases w) as [Hnew _].
  assert (Hn : no_open_handle (bridge w)) by (now rewrite Hw).
  rewrite (Hnew Hn) in Hc. injection Hc as <- _.
  eexists. rewrite Hcall. cbn [snd sent with_sent]. split; [reflexivity|].
  unfold request_on, BridgeClient.new_client. cbn [req_headers headers].
  rewrite Hw. cbn [token BridgeClient.__init__].
  apply String.eqb_neq in Hne. rewrite Hne. right. left. reflexivity.
Qed.

Lemma env_token_reaches_requests_witness :
  dict_get (_load_config FileNotFound
              (fun var => if String.eqb var "BROWSERCLAW_BRIDGE_TOKEN"
                          then Some "s3cret" else None))
    "bridge_token"
  = Some (JStr "s3cret").
Proof.
  exact (proj1 (env_token_reaches_requests FileNotFound
                  (fun var => if String.eqb var "BROWSERCLAW_BRIDGE_TOKEN"
                              then Some "s3cret" else None)
                  "s3cret" eq_refl ltac:(discriminate))).
Defined.

(** ** Bridge client: normal form of the base URL *)

Lemma rstrip_fixed (s : string) :
  (forall p, s <> p ++ "/") -> rstrip s "/" = s.
Proof.
  induction s as [|c s IH]; intros H; [reflexivity|].
  cbn [rstrip]. destruct s as [|c' s'].
  - cbn [rstrip]. destruct (mem_char c "/") eqn:Hc; [|reflexivity].
    apply mem_char_slash in Hc. subst c. now elim (H "").
  - rewrite IH.
    + reflexivity.
    + intros p Hp. apply (H (String c p)). cbn. now rewrite Hp.
Qed.

(** X20.  The stored base URL is a normal form: constructing a client
    from a stored base URL stores the same URL again, a URL that does not
    end in a slash is stored as it is, and a URL made of slashes only is
    stored as the empty string. *)
Theorem base_url_normal_form (s token : string) (timeout : Z) :
  let b := BridgeClient.__init__ s token timeout in
  base_url (BridgeClient.__init__ (base_url b) token timeout) = base_url b /\
  ((forall p, s <> p ++ "/") -> base_url b = s) /\
  ((exists n, s = slashes n) -> base_url b = "").
Proof.
  cbn zeta. cbn [BridgeClient.__init__ base_url]. repeat split.
  - apply rstrip_fixed. intros p. apply rstrip_no_trailing_slash.
  - apply rstrip_fixed.
  - intros [n ->]. induction n as [|n IH]; [reflexivity|].
    cbn [slashes rstrip]. now rewrite IH.
Qed.

Lemma base_url_normal_form_witness :
  base_url (BridgeClient.__init__ "///" "" 30) = "".
Proof.
  destruct (base_url_normal_form "///" "" 30) as (_ & _ & H).
  apply H. exists 3%nat. reflexivity.
Defined.

(** ** Translation: what a returned listing certifies *)

Lemma to_mcp_tool_returns (t : json) (x : Tool) :
  to_mcp_tool t = Returns x ->
  exists d n, t = JObj d /\ dict_get d "name" = Some n /\ x = ToolDescriptor d n.
Proof.
  destruct t as [| | | | |d]; try discriminate.
  rewrite to_mcp_tool_object.
  destruct (dict_get d "name") as [n|] eqn:E; [|discriminate].
  intros H. apply new_Tool_returns in H. subst x. now exists d, n.
Qed.

Lemma to_mcp_tools_loop_returns (l : list json) (acc ts : list Tool) :
  to_mcp_tools_loop l acc = Returns ts ->
  exists xs, ts = (acc ++ xs)%list /\
    Forall2 (fun t x => exists d n, t = JObj d /\ dict_get d "name" = Some n /\
                                    x = ToolDescriptor d n) l xs.
Proof.
  revert acc. induction l as [|t l IH]; intros acc; cbn [to_mcp_tools_loop].
  - intros [= <-]. exists []. split; [now rewrite List.app_nil_r | constructor].
  - destruct (to_mcp_tool t) as [x|e] eqn:Et; [|discriminate].
    intros H. destruct (IH _ H) as (xs & -> & Hxs).
    exists (x :: xs). rewrite <- List.app_assoc. split; [reflexivity|].
    constructor; [now apply to_mcp_tool_returns | exact Hxs].
Qed.

(** X21.  A listing that [_to_mcp_tools] returns for a list certifies
    its input: every raw element was an object with the key [name], and
    the tools are the descriptors of the elements, one for one and in
    the order of the list. *)
Theorem to_mcp_tools_returns_only_named (l : list json) (ts : list Tool)
  (Hret : _to_mcp_tools (JArr l) = Returns ts) :
  Forall2 (fun t x => exists d n, t = JObj d /\ dict_get d "name" = Some n /\
                                  x = ToolDescriptor d n) l ts /\
  List.length ts = List.length l.
Proof.
  unfold _to_mcp_tools in Hret. cbn [iterate] in Hret.
  destruct (to_mcp_tools_loop_returns l [] ts Hret) as (xs & -> & H).
  cbn [app]. split; [exact H|].
  symmetry. exact (Forall2_length H).
Qed.

Lemma to_mcp_tools_returns_only_named_witness :
  List.length [ToolDescriptor [("name", JStr "click")] (JStr "click")]
  = List.length [JObj [("name", JStr "click")]].
Proof.
  exact (proj2 (to_mcp_tools_returns_only_named
                  [JObj [("name", JStr "click")]]
                  [ToolDescriptor [("name", JStr "click")] (JStr "click")]
                  eq_refl)).
Defined.

(** X22.  A catalog that is an object or a string instead of a list is
    translated to the empty list when it is empty and refused with a
    [TypeError] otherwise: the loop visits the keys of the object, or the
    characters of the string, and none of them can be indexed by
    [name]. *)
Theorem to_mcp_tools_wrong_container (raw : json)
  (Hshape : (exists d, raw = JObj d) \/ (exists s, raw = JStr s)) :
  (truthy raw = false -> _to_mcp_tools raw = Returns []) /\
  (truthy raw = true -> exists msg, _to_mcp_tools raw = Raises (TypeError msg)).
Proof.
  destruct Hshape as [[d ->]|[s ->]].
  - destruct d as [|[k v] d]; split; try discriminate.
    + reflexivity.
    + intros _. eexists. reflexivity.
  - destruct s as [|c s]; split; try discriminate.
    + reflexivity.
    + intros _. eexists. reflexivity.
Qed.

Lemma to_mcp_tools_wrong_container_witness :
  exists msg,
    _to_mcp_tools (JObj [("click", JObj [("description", JStr "Click")])])
    = Raises (TypeError msg).
Proof.
  destruct (to_mcp_tools_wrong_container
              (JObj [("click", JObj [("description", JStr "Click")])])
              (or_introl (ex_intro _ _ eq_refl))) as [_ H].
  exact (H eq_refl).
Defined.
